(** * sysctl 1.01 (procps 3.0.5): a shallow embedding of [sysctl.c]

    The program reads and writes the kernel parameters exposed under
    [/proc/sys/].  This development embeds its functions -- [slashdot],
    [StripLeadingAndTrailingSpaces], [Preload], [WriteSetting],
    [ReadSetting], [DisplayAll] and [main] -- and states the properties of
    its specification against them.

    Modelling conventions.
    - A C string is the list of its characters before the terminating NUL
      ([cstr]); a [char *] into a buffer is the suffix starting there, or an
      offset where the code writes through it.  A file is the list of its
      bytes and may hold NUL bytes: [fgets] stores them, and the string the
      code then sees in the buffer ends at the first of them ([c_str]).
    - [int] values are in [Z]; the arithmetic on them is [n++] on the line
      counter, which wraps around as a 32-bit integer ([int_wrap]), and
      [rc |= ...] on return codes ([Z.lor]).
    - The file system is an oracle answering [fopen], [opendir] and [stat] by
      path ([filesys]); every call is recorded in a log, together with what
      was written.  No run of [main] reads a file after writing one, so the
      oracle is not updated by writes.
    - [stdout] is a character stream; [stderr] is a list of messages, one
      constructor per format string of the source with its arguments.
    - The two globals [PrintName] and [PrintNewline] live in the state. *)

From Stdlib Require Import Ascii String.
From Stdlib Require Import ZArith Lia Bool List.
Import ListNotations.
Open Scope list_scope.

(** ** C strings *)

Definition cstr := list ascii.

(** A string literal as a C string. *)
Definition lit (s : string) : cstr := list_ascii_of_string s.
Arguments lit s%_string.

Definition NL : ascii := "010"%char.   (* '\n' *)
Definition CR : ascii := "013"%char.   (* '\r' *)
Definition TAB : ascii := "009"%char.  (* '\t' *)
Definition SPC : ascii := " "%char.

(** The C string held in a buffer: the characters before the first NUL. *)
Fixpoint c_str (buf : cstr) : cstr :=
  match buf with
  | [] => []
  | c :: buf' => if Ascii.eqb c zero then [] else c :: c_str buf'
  end.

(** [c] occurs in the character set [set] (the second argument of
    [strpbrk] and [strtok]). *)
Definition in_set (c : ascii) (set : cstr) : bool :=
  existsb (Ascii.eqb c) set.

(** [strpbrk(s, accept)]: [None] is NULL; [Some k] is the pointer [s + k] to
    the first character of [s] that is in [accept]. *)
Fixpoint strpbrk (s accept : cstr) : option nat :=
  match s with
  | [] => None
  | c :: s' =>
      if in_set c accept then Some 0
      else match strpbrk s' accept with
           | None => None
           | Some k => Some (S k)
           end
  end.

(** [index(s, c)] (and [strchr]): offset of the first [c] in [s], or NULL. *)
Fixpoint index (s : cstr) (c : ascii) : option nat :=
  match s with
  | [] => None
  | d :: s' =>
      if Ascii.eqb d c then Some 0
      else match index s' c with
           | None => None
           | Some k => Some (S k)
           end
  end.

(** [*p = c] for [p = buf + i], inside the string. *)
Fixpoint store (buf : cstr) (i : nat) (c : ascii) : cstr :=
  match buf, i with
  | [] , _ => []
  | _ :: b, 0 => c :: b
  | d :: b, S i' => d :: store b i' c
  end.

(** [buf[i]]; the terminating NUL beyond the end. *)
Definition load (buf : cstr) (i : nat) : ascii := nth i buf zero.

(** ** The key transcoder: [slashdot] *)

Definition DELIMS : cstr := lit "/.".

(** The [while(p)] loop of [slashdot]: [p] is the offset of a delimiter in
    [buf].  Each turn moves [p] forward, so [length buf] turns are enough
    ([slashdot_loop_fuel] below). *)
Fixpoint slashdot_loop (fuel : nat) (buf : cstr) (p : nat) (old new : ascii)
  : cstr :=
  match fuel with
  | 0 => buf
  | S fuel' =>
      let c := load buf p in
      let buf1 := if Ascii.eqb c old then store buf p new else buf in
      let buf2 := if Ascii.eqb c new then store buf1 p old else buf1 in
      match strpbrk (skipn (p + 1) buf2) DELIMS with
      | None => buf2
      | Some k => slashdot_loop fuel' buf2 (p + 1 + k) old new
      end
  end.

(** [slashdot(p, old, new)]: the contents of the buffer [p] afterwards. *)
Definition slashdot (p : cstr) (old new : ascii) : cstr :=
  match strpbrk p DELIMS with
  | None => p                               (* nothing *)
  | Some k =>
      if Ascii.eqb (load p k) new then p    (* already in desired format *)
      else slashdot_loop (length p) p k old new
  end.
Arguments slashdot p (old new)%_char.

(** The two uses of [slashdot] in the program: "change . to /" on the file
    name, "change / to ." on the displayed name. *)
Definition KeyToPath (key : cstr) : cstr := slashdot key "." "/".
Definition PathToKey (path : cstr) : cstr := slashdot path "/" ".".

(** The uniform swap of the two characters, as the specification words it. *)
Definition swap_char (old new c : ascii) : ascii :=
  if Ascii.eqb c old then new
  else if Ascii.eqb c new then old
  else c.

Definition swap_all (old new : ascii) (s : cstr) : cstr :=
  map (swap_char old new) s.
Arguments swap_all (old new)%_char s.

(** The first delimiter of a string, if any. *)
Fixpoint first_delim (s : cstr) : option ascii :=
  match s with
  | [] => None
  | c :: s' => if in_set c DELIMS then Some c else first_delim s'
  end.

(** ** The world: file system, streams and globals *)

(** Result of a system call that sets [errno] when it fails. *)
Inductive sysres (A : Type) : Type :=
| Failed (errno : Z)
| Done (a : A).
Arguments Failed {A} errno.
Arguments Done {A} a.

(** Values of <errno.h> on Linux. *)
Definition ENOENT : Z := 2.
Definition EACCES : Z := 13.

(** The file system as the program sees it. *)
Record filesys : Type := mkFilesys {
  (* fopen(path, "r"): the contents of the stream on success *)
  fopen_r : cstr -> sysres cstr;
  (* fopen(path, "w") *)
  fopen_w : cstr -> sysres unit;
  (* opendir(path): NULL ([None]), or the names that the successive
     readdir calls return, in their order *)
  opendir : cstr -> option (list cstr);
  (* stat(path): S_ISDIR(st_mode) on success *)
  stat : cstr -> sysres bool
}.

(** What the program asks of and sends to the file system. *)
Inductive fs_event : Type :=
| Fopen (path : cstr) (mode : cstr)
| Fwrite (path : cstr) (data : cstr)
| Opendir (path : cstr)
| Stat (path : cstr).

(** Messages on [stderr]: the format strings of the source and their
    arguments; [PERROR] is [perror(s)] with the [errno] it describes. *)
Inductive message : Type :=
| ERR_UNKNOWN_PARAMETER (arg : cstr)
| ERR_MALFORMED_SETTING (setting : cstr)
| ERR_NO_EQUALS (setting : cstr)
| ERR_INVALID_KEY (key : cstr)
| ERR_UNKNOWN_WRITING (errno : Z) (key : cstr)
| ERR_UNKNOWN_READING (errno : Z) (key : cstr)
| ERR_PERMISSION_DENIED (key : cstr)
| ERR_OPENING_DIR (path : cstr)
| ERR_PRELOAD_FILE (filename : cstr)
| WARN_BAD_LINE (filename : cstr) (n : Z)
| PERROR (s : cstr) (errno : Z).

Record state : Type := mkState {
  PrintName : bool;
  PrintNewline : bool;
  stdout : cstr;
  stderr : list message;
  fs_log : list fs_event
}.

Definition print (st : state) (s : cstr) : state :=
  mkState (PrintName st) (PrintNewline st) (stdout st ++ s) (stderr st)
          (fs_log st).

Definition eprint (st : state) (m : message) : state :=
  mkState (PrintName st) (PrintNewline st) (stdout st) (stderr st ++ [m])
          (fs_log st).

Definition record (st : state) (e : fs_event) : state :=
  mkState (PrintName st) (PrintNewline st) (stdout st) (stderr st)
          (fs_log st ++ [e]).

Definition set_flags (st : state) (name newline : bool) : state :=
  mkState name newline (stdout st) (stderr st) (fs_log st).

Definition PROC_PATH : cstr := lit "/proc/sys/".
Definition DEFAULT_PRELOAD : cstr := lit "/etc/sysctl.conf".

Definition is_empty (s : cstr) : bool :=
  match s with [] => true | _ => false end.

(** ** [Usage] *)

Definition Usage (name : cstr) (st : state) : Z * state :=
  (-1,
   print st
     (lit "usage:  " ++ name ++ lit " [-n] variable ... " ++ [NL] ++
      lit "        " ++ name ++ lit " [-n] -w variable=value ... " ++ [NL] ++
      lit "        " ++ name ++ lit " [-n] -a " ++ [NL] ++
      lit "        " ++ name ++
        lit " [-n] -p <file>   (default /etc/sysctl.conf) " ++ [NL] ++
      lit "        " ++ name ++ lit " [-n] -A" ++ [NL]))%Z.

(** ** [fgets] *)

(** The characters one [fgets] call stores, and the rest of the stream: at
    most [room] characters, stopping after a newline. *)
Fixpoint fgets_chars (room : nat) (fp : cstr) : cstr * cstr :=
  match room with
  | 0 => ([], fp)
  | S room' =>
      match fp with
      | [] => ([], [])
      | c :: fp' =>
          if Ascii.eqb c NL then ([c], fp')
          else let (l, r) := fgets_chars room' fp' in (c :: l, r)
      end
  end.

(** [fgets(buf, size, fp)]: NULL at end of file, else the string stored in
    [buf] ([size - 1] characters at most) and the stream after it. *)
Definition fgets (size : nat) (fp : cstr) : option (cstr * cstr) :=
  match fp with
  | [] => None
  | _ => Some (fgets_chars (size - 1) fp)
  end.

(** ** [StripLeadingAndTrailingSpaces] *)

Definition is_blank (c : ascii) : bool :=
  Ascii.eqb c SPC || Ascii.eqb c TAB.

Definition is_space (c : ascii) : bool :=
  Ascii.eqb c SPC || Ascii.eqb c TAB || Ascii.eqb c NL || Ascii.eqb c CR.

(** The first loop, which stores NUL over each trailing space, tab, newline
    or carriage return while [t != oneline]; [t] is the offset in [buf], and
    storing NUL at [t] cuts the string there. *)
Fixpoint strip_trailing (buf : cstr) (t : nat) : cstr :=
  match t with
  | 0 => buf
  | S t' =>
      if is_space (load buf t) then strip_trailing (firstn t buf) t'
      else buf
  end.

(** The second loop, which advances [t] over spaces and tabs. *)
Fixpoint skip_blanks (t : cstr) : cstr :=
  match t with
  | [] => []
  | c :: t' => if is_blank c then skip_blanks t' else t
  end.

(** The string left in the buffer [oneline] (cut in place), and the string
    at the returned pointer. *)
Definition StripLeadingAndTrailingSpaces (oneline : cstr) : cstr * cstr :=
  match oneline with
  | [] => ([], [])
  | _ =>
      let buf := strip_trailing oneline (length oneline - 1) in
      (buf, skip_blanks buf)
  end.

(** ** [strtok] *)

(** Skip the leading delimiters ([strspn]). *)
Fixpoint skip_delims (s delim : cstr) : cstr :=
  match s with
  | [] => []
  | c :: s' => if in_set c delim then skip_delims s' delim else s
  end.

(** The token at the head of [s], and the string after the delimiter that
    ends it (the empty string when the token runs to the end). *)
Fixpoint take_token (s delim : cstr) : cstr * cstr :=
  match s with
  | [] => ([], [])
  | c :: s' =>
      if in_set c delim then ([], s')
      else let (tok, rest) := take_token s' delim in (c :: tok, rest)
  end.

(** [strtok]: the token returned (NULL is [None]) and the pointer it saves
    for the next call; [strtok(NULL, delim)] is [strtok saved delim]. *)
Definition strtok (s delim : cstr) : option cstr * cstr :=
  match skip_delims s delim with
  | [] => (None, [])
  | s' => let (tok, rest) := take_token s' delim in (Some tok, rest)
  end.

(** ** [WriteSetting] *)

Local Open Scope Z_scope.

(** [setting] is [None] for a NULL pointer. *)
Definition WriteSetting (fs : filesys) (setting : option cstr) (st : state)
  : Z * state :=
  match setting with
  | None => (0, st)
  | Some name =>
      match index name "=" with
      | None => (-1, eprint st (ERR_NO_EQUALS name))
      | Some equals =>
          let value := skipn (equals + 1) name in
          if is_empty name || is_empty value || Nat.eqb equals 0 then
            (-2, eprint st (ERR_MALFORMED_SETTING name))
          else
            (* used to open the file *)
            let tmpname := PROC_PATH ++ slashdot (firstn equals name) "." "/" in
            (* used to display the output *)
            let outname := slashdot (firstn equals name) "/" "." in
            let st := record st (Fopen tmpname (lit "w")) in
            match fopen_w fs tmpname with
            | Failed errno =>
                let st :=
                  if errno =? ENOENT then eprint st (ERR_INVALID_KEY outname)
                  else if errno =? EACCES then
                    eprint st (ERR_PERMISSION_DENIED outname)
                  else eprint st (ERR_UNKNOWN_WRITING errno outname) in
                (-1, st)
            | Done _ =>
                let st := record st (Fwrite tmpname (value ++ [NL])) in
                let st :=
                  if PrintName st then
                    print st (outname ++ lit " = " ++ value ++ [NL])
                  else if PrintNewline st then print st (value ++ [NL])
                  else print st value in
                (0, st)
            end
      end
  end.

(** ** [ReadSetting] *)

(** The [while(fgets(inbuf, 1024, fp))] loop; every call on a stream that
    is not at its end consumes a character, so [length fp] turns are enough
    ([ReadSetting_while_fuel] below). *)
Fixpoint ReadSetting_while (fuel : nat) (fp outname : cstr) (st : state)
  : state :=
  match fuel with
  | O => st
  | S fuel' =>
      match fgets 1024 fp with
      | None => st
      | Some (inbuf, fp') =>
          (* the string that fprintf and strchr see in the buffer *)
          let inbuf := c_str inbuf in
          (* already has the \n in it *)
          let st :=
            if PrintName st then print st (outname ++ lit " = " ++ inbuf)
            else
              let inbuf :=
                if negb (PrintNewline st) then
                  match index inbuf NL with
                  | Some nlptr => firstn nlptr inbuf
                  | None => inbuf
                  end
                else inbuf in
              print st inbuf in
          ReadSetting_while fuel' fp' outname st
      end
  end.

Definition ReadSetting (fs : filesys) (setting : cstr) (st : state)
  : Z * state :=
  let st :=
    if is_empty setting then eprint st (ERR_INVALID_KEY setting) else st in
  (* used to open the file *)
  let tmpname := PROC_PATH ++ slashdot setting "." "/" in
  (* used to display the output *)
  let outname := slashdot setting "/" "." in
  let st := record st (Fopen tmpname (lit "r")) in
  match fopen_r fs tmpname with
  | Failed errno =>
      let st :=
        if errno =? ENOENT then eprint st (ERR_INVALID_KEY outname)
        else if errno =? EACCES then eprint st (ERR_PERMISSION_DENIED outname)
        else eprint st (ERR_UNKNOWN_READING errno outname) in
      (-1, st)
  | Done fp =>
      (0, ReadSetting_while (length fp) fp outname st)
  end.

(** ** [Preload] *)

(** The body of the [while (fgets(oneline, 256, fp))] loop for the line
    [oneline], after [n++]. *)
Definition Preload_line (fs : filesys) (filename : cstr) (n : Z)
    (oneline : cstr) (st : state) : state :=
  (* the string in the buffer ends at the first NUL that fgets stored *)
  let oneline := c_str oneline in
  let t := snd (StripLeadingAndTrailingSpaces oneline) in
  if Nat.ltb (length t) 2 then st
  else if Ascii.eqb (load t 0) "#" || Ascii.eqb (load t 0) ";" then st
  else
    let (name, saved) := strtok t (lit "=") in
    match name with
    | None => eprint st (WARN_BAD_LINE filename n)
    | Some name =>
        if is_empty name then eprint st (WARN_BAD_LINE filename n)
        else
          (* the string is cut in place; the returned pointer is dropped *)
          let name := fst (StripLeadingAndTrailingSpaces name) in
          let (value, _) := strtok saved [NL; CR] in
          match value with
          | None => eprint st (WARN_BAD_LINE filename n)
          | Some value =>
              if is_empty value then eprint st (WARN_BAD_LINE filename n)
              else
                let value := skip_blanks value in
                let buffer := name ++ lit "=" ++ value in
                snd (WriteSetting fs (Some buffer) st)
          end
    end.

(** [n++] on the [int] counter: past [2^31 - 1] the value wraps around to
    [-2^31]. *)
Definition int_wrap (z : Z) : Z := (z + 2 ^ 31) mod 2 ^ 32 - 2 ^ 31.

(** The loop itself; [n] is the counter before the call.  [length fp]
    turns are enough ([Preload_while_fuel] below). *)
Fixpoint Preload_while (fuel : nat) (fs : filesys) (filename fp : cstr)
    (n : Z) (st : state) : state :=
  match fuel with
  | O => st
  | S fuel' =>
      match fgets 256 fp with
      | None => st
      | Some (oneline, fp') =>
          let n := int_wrap (n + 1) in
          Preload_while fuel' fs filename fp' n
            (Preload_line fs filename n oneline st)
      end
  end.

(** [filename] is never NULL: [main] passes [DEFAULT_PRELOAD] or an
    argument. *)
Definition Preload (fs : filesys) (filename : cstr) (st : state) : state :=
  let st := record st (Fopen filename (lit "r")) in
  match fopen_r fs filename with
  | Failed _ => eprint st (ERR_PRELOAD_FILE filename)
  | Done fp => Preload_while (length fp) fs filename fp 0 st
  end.

(** ** [DisplayAll] *)

(** The [while (( de = readdir(dp) ))] loop over the names still to come;
    [rec] is the recursive call of [DisplayAll]. *)
Fixpoint DisplayAll_while (rec : cstr -> state -> option (Z * state))
    (fs : filesys) (path : cstr) (entries : list cstr) (rc : Z) (st : state)
  : option (Z * state) :=
  match entries with
  | [] => Some (rc, st)
  | d_name :: entries' =>
      let tmpdir := path ++ d_name in
      let st := record st (Stat tmpdir) in
      match stat fs tmpdir with
      | Failed errno =>
          DisplayAll_while rec fs path entries' rc
            (eprint st (PERROR tmpdir errno))
      | Done true =>
          match rec (tmpdir ++ lit "/") st with
          | None => None
          | Some (_, st) => DisplayAll_while rec fs path entries' rc st
          end
      | Done false =>
          let key := skipn (length PROC_PATH) tmpdir in
          let (rc1, st) := ReadSetting fs key st in
          DisplayAll_while rec fs path entries' (Z.lor rc rc1) st
      end
  end.

(** [DisplayAll(path, ShowTableUtil)]; [fuel] bounds the depth of the
    recursion, and [None] means it was not enough. *)
Fixpoint DisplayAll (fuel : nat) (fs : filesys) (ShowTableUtil : bool)
    (path : cstr) (st : state) : option (Z * state) :=
  match fuel with
  | O => None
  | S fuel' =>
      let st := record st (Opendir path) in
      match opendir fs path with
      | None => Some (-1, eprint st (ERR_OPENING_DIR path))
      | Some names =>
          (* readdir(dp); readdir(dp);  skip . and .. *)
          DisplayAll_while (DisplayAll fuel' fs ShowTableUtil) fs path
            (skipn 2 names) 0 st
      end
  end.

(** ** [main] *)

(** GNU [basename]: what follows the last slash. *)
Fixpoint basename (path : cstr) : cstr :=
  match path with
  | [] => []
  | c :: rest => if in_set "/" path then basename rest else path
  end.

(** The [for (; argv && *argv && **argv; argv++)] loop on the arguments
    still to come (the list ends where [*argv] is NULL). *)
Fixpoint main_for (fuel : nat) (fs : filesys) (me : cstr) (argv : list cstr)
    (SwitchesAllowed WriteMode : bool) (ReturnCode : Z) (st : state)
  : option (Z * state) :=
  match argv with
  | [] => Some (ReturnCode, st)
  | arg :: argv' =>
      if is_empty arg then Some (ReturnCode, st)
      else if SwitchesAllowed && Ascii.eqb (load arg 0) "-" then
        (* we have a switch *)
        let sw := load arg 1 in
        if Ascii.eqb sw "b" then
          main_for fuel fs me argv' SwitchesAllowed WriteMode ReturnCode
            (set_flags st false false)
        else if Ascii.eqb sw "n" then
          main_for fuel fs me argv' SwitchesAllowed WriteMode ReturnCode
            (set_flags st false (PrintNewline st))
        else if Ascii.eqb sw "w" then
          main_for fuel fs me argv' false true ReturnCode st
        else if Ascii.eqb sw "p" then
          let preloadfile :=
            match argv' with
            | file :: _ => if is_empty file then DEFAULT_PRELOAD else file
            | [] => DEFAULT_PRELOAD
            end in
          Some (0, Preload fs preloadfile st)
        else if Ascii.eqb sw "a" || Ascii.eqb sw "A" || Ascii.eqb sw "X" then
          DisplayAll fuel fs (negb (Ascii.eqb sw "a")) PROC_PATH st
        else if Ascii.eqb sw "h" || Ascii.eqb sw "?" then
          Some (Usage me st)
        else
          Some (Usage me (eprint st (ERR_UNKNOWN_PARAMETER arg)))
      else
        if WriteMode then
          let (rc, st) := WriteSetting fs (Some arg) st in
          main_for fuel fs me argv' false WriteMode rc st
        else
          let (_, st) := ReadSetting fs arg st in
          main_for fuel fs me argv' false WriteMode ReturnCode st
  end.

Definition initial_state : state := mkState true true [] [] [].

(** [main(argc, argv)] with [argv0 = argv[0]] and [args] the arguments
    after it, so that [argc = 1 + length args]. *)
Definition main (fuel : nat) (fs : filesys) (argv0 : cstr) (args : list cstr)
  : option (Z * state) :=
  let me := basename argv0 in
  let st := initial_state in
  if Nat.ltb (1 + length args) 2 then Some (Usage me st)
  else main_for fuel fs me args true false 0 st.

(** The status the parent process sees: the low eight bits of the value
    [main] returns. *)
Definition exit_status (rc : Z) : Z := Z.land rc 255.

Local Close Scope Z_scope.

(** ** Definitions used to state the properties *)

(** What the loop of [slashdot] does to the string from its first
    delimiter on: the swap at every delimiter. *)
Definition swap_delims (old new : ascii) (s : cstr) : cstr :=
  map (fun c => if in_set c DELIMS then swap_char old new c else c) s.

(** A setting with no [=], or with nothing on one side of its first [=]. *)
Definition malformed (setting : cstr) : Prop :=
  ~ In "="%char setting \/
  (exists v, setting = lit "=" ++ v) \/
  (exists k, ~ In "="%char k /\ setting = k ++ lit "=").

(** The OS error of a failed open and the message it must produce;
    [unknown] is the message of the operation for any other error. *)
Definition open_error_message (unknown : Z -> cstr -> message) (errno : Z)
    (outname : cstr) (m : message) : Prop :=
  (errno = ENOENT /\ m = ERR_INVALID_KEY outname) \/
  (errno = EACCES /\ m = ERR_PERMISSION_DENIED outname) \/
  (errno <> ENOENT /\ errno <> EACCES /\ m = unknown errno outname).

(** The physical lines of a text, each with its terminator (the last one
    may lack it). *)
Fixpoint phys_lines (s : cstr) : list cstr :=
  match s with
  | [] => []
  | c :: s' =>
      if Ascii.eqb c NL then [c] :: phys_lines s'
      else match phys_lines s' with
           | [] => [[c]]
           | l :: ls => (c :: l) :: ls
           end
  end.

(** Every physical line fits one [fgets(oneline, 256, fp)]. *)
Definition short_lines (s : cstr) : Prop :=
  Forall (fun l => length l <= 255) (phys_lines s).

(** The lines [ls] processed in order, the [k]-th one under the number
    [first + k - 1]. *)
Definition Preload_numbered (fs : filesys) (filename : cstr) (first : nat)
    (ls : list cstr) (st : state) : state :=
  fold_left
    (fun st kl => Preload_line fs filename (Z.of_nat (fst kl)) (snd kl) st)
    (combine (seq first (length ls)) ls) st.

Definition blanks (s : cstr) : Prop := Forall (fun c => is_blank c = true) s.
Definition spaces (s : cstr) : Prop := Forall (fun c => is_space c = true) s.

(** [s] is not empty and has no white space at either end. *)
Definition trimmed (s : cstr) : Prop :=
  s <> [] /\ is_blank (hd zero s) = false /\ is_space (last s zero) = false.

Definition is_comment (s : cstr) : bool :=
  Ascii.eqb (load s 0) "#" || Ascii.eqb (load s 0) ";".

(** A stripped line that, after its leading [=] characters if it has any,
    holds no [=] or only a final one.  These are the lines with no [=] at
    all or nothing after their first [=] (no value), and those of the lines
    starting with [=] (no name) that do not go on as [name=value]. *)
Definition one_sided (body : cstr) : Prop :=
  exists eqs r : cstr,
    Forall (fun c => c = "="%char) eqs /\ ~ In "="%char r /\
    (body = eqs ++ r \/ body = eqs ++ r ++ lit "=").

(** The text without its newline characters. *)
Definition without_newlines (s : cstr) : cstr :=
  filter (fun c => negb (Ascii.eqb c NL)) s.

(** The text without the terminator of its last line only. *)
Definition without_final_newline (s : cstr) : cstr :=
  match rev s with
  | c :: r => if Ascii.eqb c NL then rev r else s
  | [] => s
  end.

(** [strcmp(a, b) == 0] *)
Fixpoint cstr_eqb (a b : cstr) : bool :=
  match a, b with
  | [], [] => true
  | x :: a', y :: b' => Ascii.eqb x y && cstr_eqb a' b'
  | _, _ => false
  end.

(** ** Sample file systems *)

Definition path_is (p : cstr) (s : string) : bool := cstr_eqb p (lit s).
Arguments path_is p s%_string.

Definition sample_conf : cstr :=
  lit "# comment" ++ [NL] ++ [NL] ++ lit "foo.bar = 42" ++ [NL] ++
  lit "badline" ++ [NL].

(** A root with the file [version] and the directory [net] holding [a] and
    [b]; [net/b] may be neither read nor written, [foo/bar] may be written,
    and [/etc/sysctl.conf] is [sample_conf]. *)
Definition sample_fs : filesys :=
  mkFilesys
    (fun p =>
       if path_is p "/proc/sys/version" then Done (lit "1" ++ [NL])
       else if path_is p "/proc/sys/net/a" then
         Done (lit "1" ++ [NL] ++ lit "2" ++ [NL])
       else if path_is p "/proc/sys/net/b" then Failed EACCES
       else if path_is p "/proc/sys/dev/raid" then Failed 5%Z
       else if path_is p "/etc/sysctl.conf" then Done sample_conf
       else Failed ENOENT)
    (fun p =>
       if path_is p "/proc/sys/foo/bar" then Done tt
       else if path_is p "/proc/sys/net/b" then Failed EACCES
       else if path_is p "/proc/sys/dev/raid" then Failed 5%Z
       else Failed ENOENT)
    (fun p =>
       if path_is p "/proc/sys/" then
         Some [lit "."; lit ".."; lit "net"; lit "version"]
       else if path_is p "/proc/sys/net/" then
         Some [lit "."; lit ".."; lit "a"; lit "b"]
       else None)
    (fun p =>
       if path_is p "/proc/sys/net" then Done true
       else if path_is p "/proc/sys/version" then Done false
       else if path_is p "/proc/sys/net/a" then Done false
       else if path_is p "/proc/sys/net/b" then Done false
       else Failed ENOENT).

(** A root whose directory stream has no entries for dot and dot-dot:
    three readable files [a], [b], [c]. *)
Definition nodots_fs : filesys :=
  mkFilesys
    (fun p =>
       if path_is p "/proc/sys/a" then Done (lit "1" ++ [NL])
       else if path_is p "/proc/sys/b" then Done (lit "2" ++ [NL])
       else if path_is p "/proc/sys/c" then Done (lit "3" ++ [NL])
       else Failed ENOENT)
    (fun _ => Failed ENOENT)
    (fun p =>
       if path_is p "/proc/sys/" then Some [lit "a"; lit "b"; lit "c"]
       else None)
    (fun p =>
       if path_is p "/proc/sys/a" then Done false
       else if path_is p "/proc/sys/b" then Done false
       else if path_is p "/proc/sys/c" then Done false
       else Failed ENOENT).

(** A root whose directory stream yields the file [a] before dot and
    dot-dot; the parent directory cannot be opened. *)
Definition dotslast_fs : filesys :=
  mkFilesys
    (fun p =>
       if path_is p "/proc/sys/a" then Done (lit "1" ++ [NL])
       else Failed ENOENT)
    (fun _ => Failed ENOENT)
    (fun p =>
       if path_is p "/proc/sys/" then Some [lit "a"; lit "."; lit ".."]
       else None)
    (fun p =>
       if path_is p "/proc/sys/a" then Done false
       else if path_is p "/proc/sys/." then Done true
       else if path_is p "/proc/sys/.." then Done true
       else Failed ENOENT).

(** A root with the file [nul], whose first line holds a NUL byte. *)
Definition nul_content : cstr :=
  lit "ab" ++ [zero] ++ lit "cd" ++ [NL] ++ lit "ef" ++ [NL].

Definition nul_fs : filesys :=
  mkFilesys
    (fun p => if path_is p "/proc/sys/nul" then Done nul_content
              else Failed ENOENT)
    (fun _ => Failed ENOENT)
    (fun _ => None)
    (fun _ => Failed ENOENT).

(** A preload file whose first line, a comment, has 300 characters, and
    whose second line is [badline]. *)
Definition long_conf : cstr :=
  repeat "#"%char 300 ++ [NL] ++ lit "badline" ++ [NL].

Definition long_fs : filesys :=
  mkFilesys
    (fun p => if path_is p "/etc/sysctl.conf" then Done long_conf
              else Failed ENOENT)
    (fun p => if path_is p "/proc/sys/a" then Done tt else Failed ENOENT)
    (fun _ => None)
    (fun _ => Failed ENOENT).

(** ** Definitions used to state further properties *)

(** The calls that only read the file system. *)
Definition reads_only (e : fs_event) : bool :=
  match e with
  | Fopen _ mode => cstr_eqb mode (lit "r")
  | Fwrite _ _ => false
  | Opendir _ => true
  | Stat _ => true
  end.

(** The code of reading [key], from the open alone. *)
Definition read_code (fs : filesys) (key : cstr) : Z :=
  match fopen_r fs (PROC_PATH ++ KeyToPath key) with
  | Failed _ => (-1)%Z
  | Done _ => 0%Z
  end.

(** The codes of the entries of [path] that [stat] finds not to be
    directories, or-ed onto [rc]. *)
Definition leaf_codes (fs : filesys) (path : cstr) (entries : list cstr)
    (rc : Z) : Z :=
  fold_left
    (fun rc d_name =>
       match stat fs (path ++ d_name) with
       | Done false =>
           Z.lor rc (read_code fs (skipn (length PROC_PATH) (path ++ d_name)))
       | _ => rc
       end)
    entries rc.

(** Every physical line has at most [room] characters. *)
Definition lines_within (room : nat) (s : cstr) : Prop :=
  Forall (fun l => length l <= room) (phys_lines s).

(** The walk from [path] nests at most [d] calls of [DisplayAll]: the
    directory cannot be opened, or each entry after the first two that
    [stat] finds to be a directory nests at most [d - 1]. *)
Fixpoint shallow (d : nat) (fs : filesys) (path : cstr) : Prop :=
  match d with
  | 0 => False
  | S d' =>
      match opendir fs path with
      | None => True
      | Some names =>
          Forall
            (fun d_name =>
               stat fs (path ++ d_name) = Done true ->
               shallow d' fs ((path ++ d_name) ++ lit "/"))
            (skipn 2 names)
      end
  end.

(** The arguments before the first empty one. *)
Fixpoint before_empty (args : list cstr) : list cstr :=
  match args with
  | [] => []
  | arg :: args' => if is_empty arg then [] else arg :: before_empty args'
  end.

(** [arg] is taken for the switch [-b] or [-n]. *)
Definition display_switch (arg : cstr) : bool :=
  Ascii.eqb (load arg 0) "-" &&
  (Ascii.eqb (load arg 1) "b" || Ascii.eqb (load arg 1) "n").

(** * Properties *)

Arguments in_set : simpl never.

(** ** String primitives *)

Lemma strpbrk_None (s accept : cstr) :
  strpbrk s accept = None -> Forall (fun c => in_set c accept = false) s.
Proof.
  induction s as [|c s IH]; simpl; intros H; [constructor|].
  destruct (in_set c accept) eqn:E; [discriminate|].
  destruct (strpbrk s accept); [discriminate|].
  constructor; auto.
Qed.

Lemma strpbrk_Some (s accept : cstr) (k : nat) :
  strpbrk s accept = Some k ->
  exists r1 d r2,
    s = r1 ++ d :: r2 /\ length r1 = k /\ in_set d accept = true /\
    Forall (fun c => in_set c accept = false) r1.
Proof.
  revert k; induction s as [|c s IH]; simpl; intros k H; [discriminate|].
  destruct (in_set c accept) eqn:E.
  - injection H as <-. exists [], c, s. repeat split; auto.
  - destruct (strpbrk s accept) as [j|]; [|discriminate].
    injection H as <-.
    destruct (IH j eq_refl) as (r1 & d & r2 & -> & Hl & Hd & Hr).
    exists (c :: r1), d, r2. simpl. repeat split; auto.
Qed.

Lemma load_app (pre : cstr) (c : ascii) (rest : cstr) :
  load (pre ++ c :: rest) (length pre) = c.
Proof.
  unfold load. rewrite app_nth2, Nat.sub_diag; [reflexivity | lia].
Qed.

Lemma store_app (pre : cstr) (c d : ascii) (rest : cstr) :
  store (pre ++ c :: rest) (length pre) d = pre ++ d :: rest.
Proof.
  induction pre as [|x pre IH]; simpl; [reflexivity|]. now rewrite IH.
Qed.

Lemma skipn_app_cons (pre : cstr) (c : ascii) (rest : cstr) :
  skipn (length pre + 1) (pre ++ c :: rest) = rest.
Proof.
  induction pre as [|x pre IH]; simpl; auto.
Qed.

(** ** The key transcoder *)

(** One turn of the loop writes [swap_char old new c] over [c]. *)
Lemma slashdot_step (old new c : ascii) (pre rest : cstr) :
  let buf := pre ++ c :: rest in
  let buf1 := if Ascii.eqb c old then store buf (length pre) new else buf in
  (if Ascii.eqb c new then store buf1 (length pre) old else buf1)
  = pre ++ swap_char old new c :: rest.
Proof.
  simpl. unfold swap_char.
  destruct (Ascii.eqb c old) eqn:Eo, (Ascii.eqb c new) eqn:En;
    rewrite ?store_app; try reflexivity.
  apply Ascii.eqb_eq in Eo, En. congruence.
Qed.

Lemma swap_delims_none (old new : ascii) (s : cstr) :
  Forall (fun c => in_set c DELIMS = false) s -> swap_delims old new s = s.
Proof.
  induction 1 as [|c s Hc _ IH]; [reflexivity|].
  unfold swap_delims in *. cbn [map]. now rewrite Hc, IH.
Qed.

Lemma swap_delims_app (old new : ascii) (s1 s2 : cstr) :
  swap_delims old new (s1 ++ s2)
  = swap_delims old new s1 ++ swap_delims old new s2.
Proof. apply map_app. Qed.

Lemma slashdot_loop_spec (old new : ascii) (fuel : nat) :
  forall (pre : cstr) (c : ascii) (rest : cstr),
    in_set c DELIMS = true ->
    length (c :: rest) <= fuel ->
    slashdot_loop fuel (pre ++ c :: rest) (length pre) old new
    = pre ++ swap_delims old new (c :: rest).
Proof.
  induction fuel as [|fuel IH]; intros pre c rest Hc Hlen; simpl in Hlen;
    [lia|].
  cbn [slashdot_loop]. rewrite load_app.
  pose proof (slashdot_step old new c pre rest) as Hs. cbv zeta in Hs.
  rewrite Hs. rewrite skipn_app_cons.
  cbn [swap_delims map]. rewrite Hc.
  destruct (strpbrk rest DELIMS) as [k|] eqn:E.
  - destruct (strpbrk_Some _ _ _ E) as (r1 & d & r2 & -> & Hl & Hd & Hr).
    replace (pre ++ swap_char old new c :: r1 ++ d :: r2)
      with ((pre ++ swap_char old new c :: r1) ++ d :: r2)
      by (rewrite <- app_assoc; reflexivity).
    replace (length pre + 1 + k)
      with (length (pre ++ swap_char old new c :: r1))
      by (rewrite length_app; simpl; lia).
    rewrite IH; auto.
    + rewrite <- app_assoc. cbn [app]. f_equal. f_equal.
      fold (swap_delims old new (r1 ++ d :: r2)).
      rewrite (swap_delims_app old new r1 (d :: r2)).
      now rewrite (swap_delims_none old new r1).
    + rewrite length_app in Hlen. simpl in *. lia.
  - apply strpbrk_None in E.
    fold (swap_delims old new rest). now rewrite swap_delims_none.
Qed.

(** The loop does not depend on the fuel once it covers the string. *)
Lemma slashdot_loop_fuel (old new : ascii) (fuel : nat) (pre : cstr)
    (c : ascii) (rest : cstr) :
  in_set c DELIMS = true ->
  length (pre ++ c :: rest) <= fuel ->
  slashdot_loop fuel (pre ++ c :: rest) (length pre) old new
  = slashdot_loop (length (pre ++ c :: rest)) (pre ++ c :: rest) (length pre)
      old new.
Proof.
  intros Hc Hlen. rewrite !slashdot_loop_spec; auto.
  - rewrite length_app. simpl. lia.
  - rewrite length_app in Hlen. simpl in *. lia.
Qed.

Lemma in_DELIMS (c : ascii) :
  in_set c DELIMS = (Ascii.eqb c "/" || Ascii.eqb c ".").
Proof.
  unfold in_set, DELIMS, lit. cbn [list_ascii_of_string existsb].
  now rewrite orb_false_r.
Qed.

Lemma first_delim_None (s : cstr) :
  strpbrk s DELIMS = None -> first_delim s = None.
Proof.
  induction s as [|c s IH]; simpl; [reflexivity|].
  destruct (in_set c DELIMS); [discriminate|].
  destruct (strpbrk s DELIMS); [discriminate | auto].
Qed.

Lemma first_delim_app (r1 : cstr) (d : ascii) (r2 : cstr) :
  Forall (fun c => in_set c DELIMS = false) r1 ->
  in_set d DELIMS = true ->
  first_delim (r1 ++ d :: r2) = Some d.
Proof.
  intros Hr Hd. induction Hr as [|c r1 Hc _ IH]; cbn [app first_delim].
  - now rewrite Hd.
  - now rewrite Hc.
Qed.

(** [slashdot] by the first delimiter of the string. *)
Lemma slashdot_cases (s : cstr) (old new : ascii) :
  slashdot s old new =
  match first_delim s with
  | None => s
  | Some d => if Ascii.eqb d new then s else swap_delims old new s
  end.
Proof.
  unfold slashdot. destruct (strpbrk s DELIMS) as [k|] eqn:E.
  - destruct (strpbrk_Some _ _ _ E) as (r1 & d & r2 & -> & <- & Hd & Hr).
    rewrite first_delim_app, load_app by assumption.
    destruct (Ascii.eqb d new); [reflexivity|].
    rewrite slashdot_loop_spec; auto.
    + rewrite swap_delims_app. now rewrite (swap_delims_none old new r1).
    + rewrite length_app. lia.
  - now rewrite first_delim_None.
Qed.

Lemma swap_delims_all (old new : ascii) (s : cstr) :
  in_set old DELIMS = true -> in_set new DELIMS = true ->
  swap_delims old new s = swap_all old new s.
Proof.
  intros Ho Hn. unfold swap_delims, swap_all. apply map_ext. intros c.
  destruct (in_set c DELIMS) eqn:Hc; [reflexivity|].
  unfold swap_char.
  destruct (Ascii.eqb c old) eqn:Eo;
    [apply Ascii.eqb_eq in Eo; congruence|].
  destruct (Ascii.eqb c new) eqn:En;
    [apply Ascii.eqb_eq in En; congruence|reflexivity].
Qed.

Lemma first_delim_in (s : cstr) (d : ascii) :
  first_delim s = Some d -> d = "/"%char \/ d = "."%char.
Proof.
  induction s as [|c s IH]; simpl; [discriminate|].
  destruct (in_set c DELIMS) eqn:Hc; [|assumption].
  intros [= <-]. rewrite in_DELIMS in Hc.
  apply orb_true_iff in Hc as [H|H]; apply Ascii.eqb_eq in H; auto.
Qed.

Lemma KeyToPath_cases (s : cstr) :
  KeyToPath s =
  match first_delim s with
  | None => s
  | Some d => if Ascii.eqb d "." then swap_all "." "/" s else s
  end.
Proof.
  unfold KeyToPath. rewrite slashdot_cases.
  destruct (first_delim s) as [d|] eqn:E; [|reflexivity].
  destruct (first_delim_in _ _ E) as [-> | ->]; simpl.
  - reflexivity.
  - now apply swap_delims_all.
Qed.

Lemma PathToKey_cases (s : cstr) :
  PathToKey s =
  match first_delim s with
  | None => s
  | Some d => if Ascii.eqb d "/" then swap_all "/" "." s else s
  end.
Proof.
  unfold PathToKey. rewrite slashdot_cases.
  destruct (first_delim s) as [d|] eqn:E; [|reflexivity].
  destruct (first_delim_in _ _ E) as [-> | ->]; simpl.
  - now apply swap_delims_all.
  - reflexivity.
Qed.

(** C3, as the code has it.  [slashdot] looks at the first delimiter of
    the string: when it is the character to replace, every dot and every
    slash of the string is swapped for the other in one pass; when it is
    already the wanted one, or the string has no delimiter, the string is
    left as it is.  [KeyToPath "net.ipv4.ip_forward"] is
    ["net/ipv4/ip_forward"]. *)
Theorem slashdot_swaps_from_first_delimiter (s : cstr) :
  KeyToPath s =
    match first_delim s with
    | None => s
    | Some d => if Ascii.eqb d "." then swap_all "." "/" s else s
    end /\
  PathToKey s =
    match first_delim s with
    | None => s
    | Some d => if Ascii.eqb d "/" then swap_all "/" "." s else s
    end /\
  KeyToPath (lit "net.ipv4.ip_forward") = lit "net/ipv4/ip_forward".
Proof.
  split; [apply KeyToPath_cases|].
  split; [apply PathToKey_cases|reflexivity].
Qed.

(** C3 as stated fails: a string whose first delimiter is a slash keeps its
    dots and slashes under [KeyToPath]. *)
Lemma slashdot_not_uniform_swap :
  KeyToPath (lit "a/b.c") = lit "a/b.c" /\
  swap_all "." "/" (lit "a/b.c") = lit "a.b/c" /\
  KeyToPath (lit "a/b.c") <> swap_all "." "/" (lit "a/b.c").
Proof.
  split; [reflexivity|]. split; [reflexivity|]. discriminate.
Qed.

Lemma first_delim_dot (K : cstr) :
  In "."%char K -> ~ In "/"%char K -> first_delim K = Some "."%char.
Proof.
  induction K as [|c K IH]; simpl; [tauto|].
  intros Hin Hno. rewrite in_DELIMS.
  destruct (Ascii.eqb c "/") eqn:Es;
    [apply Ascii.eqb_eq in Es; tauto|].
  destruct (Ascii.eqb c ".") eqn:Ed; simpl.
  - apply Ascii.eqb_eq in Ed. now subst.
  - apply IH; [|tauto]. destruct Hin as [->|]; [|assumption].
    now rewrite Ascii.eqb_refl in Ed.
Qed.

Lemma swap_char_dot_slash (c : ascii) :
  swap_char "/" "." (swap_char "." "/" c) = c.
Proof.
  unfold swap_char.
  destruct (Ascii.eqb c ".") eqn:Ed.
  - apply Ascii.eqb_eq in Ed. now subst.
  - destruct (Ascii.eqb c "/") eqn:Es.
    + apply Ascii.eqb_eq in Es. now subst.
    + now rewrite Es, Ed.
Qed.

Lemma first_delim_swapped (K : cstr) :
  first_delim K = Some "."%char ->
  first_delim (swap_all "." "/" K) = Some "/"%char.
Proof.
  induction K as [|c K IH]; [discriminate|].
  unfold swap_all in *. cbn [map first_delim]. rewrite !in_DELIMS.
  unfold swap_char.
  destruct (Ascii.eqb c ".") eqn:Ed.
  - reflexivity.
  - destruct (Ascii.eqb c "/") eqn:Es.
    + apply Ascii.eqb_eq in Es. subst c. simpl. discriminate.
    + rewrite Es, Ed. simpl. exact IH.
Qed.

(** C4.  A key with at least one dot and no slash comes back unchanged
    from [KeyToPath] followed by [PathToKey]. *)
Theorem key_path_round_trip (K : cstr) :
  In "."%char K -> ~ In "/"%char K -> PathToKey (KeyToPath K) = K.
Proof.
  intros Hdot Hslash.
  pose proof (first_delim_dot K Hdot Hslash) as Hfd.
  rewrite KeyToPath_cases, Hfd. simpl.
  rewrite PathToKey_cases, (first_delim_swapped K Hfd). simpl.
  unfold swap_all. rewrite map_map.
  rewrite <- (map_id K) at 2. apply map_ext. apply swap_char_dot_slash.
Qed.

Lemma key_path_round_trip_witness :
  In "."%char (lit "net.ipv4.ip_forward") /\
  ~ In "/"%char (lit "net.ipv4.ip_forward") /\
  PathToKey (KeyToPath (lit "net.ipv4.ip_forward")) = lit "net.ipv4.ip_forward".
Proof.
  assert (Hdot : In "."%char (lit "net.ipv4.ip_forward")).
  { simpl. tauto. }
  assert (Hslash : ~ In "/"%char (lit "net.ipv4.ip_forward")).
  { simpl. intros H. repeat (destruct H as [H|H]; [discriminate H|]). exact H. }
  split; [exact Hdot|]. split; [exact Hslash|].
  exact (key_path_round_trip (lit "net.ipv4.ip_forward") Hdot Hslash).
Defined.

(** ** Single-key access *)

Lemma index_not_in (s : cstr) (c : ascii) : ~ In c s -> index s c = None.
Proof.
  induction s as [|d s IH]; simpl; [reflexivity|]. intros H.
  destruct (Ascii.eqb d c) eqn:E; [apply Ascii.eqb_eq in E; tauto|].
  rewrite IH; tauto.
Qed.

Lemma index_app (k : cstr) (c : ascii) (v : cstr) :
  ~ In c k -> index (k ++ c :: v) c = Some (length k).
Proof.
  induction k as [|d k IH]; simpl; intros H.
  - now rewrite Ascii.eqb_refl.
  - destruct (Ascii.eqb d c) eqn:E; [apply Ascii.eqb_eq in E; tauto|].
    rewrite IH; tauto.
Qed.

Lemma index_in (s : cstr) (c : ascii) : In c s -> index s c <> None.
Proof.
  induction s as [|d s IH]; simpl; [tauto|]. intros H.
  destruct (Ascii.eqb d c) eqn:E; [discriminate|].
  destruct H as [->|H]; [now rewrite Ascii.eqb_refl in E|].
  destruct (index s c); [discriminate | now apply IH].
Qed.

Lemma firstn_length_app (k v : cstr) : firstn (length k) (k ++ v) = k.
Proof.
  rewrite firstn_app, Nat.sub_diag, firstn_all. simpl. apply app_nil_r.
Qed.

Lemma skipn_length_app (k : cstr) (c : ascii) (v : cstr) :
  skipn (length k + 1) (k ++ c :: v) = v.
Proof. apply skipn_app_cons. Qed.

Local Open Scope Z_scope.

(** The message chosen by the [switch(errno)] of both operations. *)
Lemma classify_errno (unknown : Z -> cstr -> message) (errno : Z)
    (outname : cstr) (st : state) :
  exists m,
    open_error_message unknown errno outname m /\
    (if errno =? ENOENT then eprint st (ERR_INVALID_KEY outname)
     else if errno =? EACCES then eprint st (ERR_PERMISSION_DENIED outname)
     else eprint st (unknown errno outname)) = eprint st m.
Proof.
  unfold open_error_message.
  destruct (errno =? ENOENT) eqn:E1;
    [apply Z.eqb_eq in E1|apply Z.eqb_neq in E1].
  - eexists; split; [left; split; [assumption|reflexivity] | reflexivity].
  - destruct (errno =? EACCES) eqn:E2;
      [apply Z.eqb_eq in E2|apply Z.eqb_neq in E2].
    + eexists; split; [|reflexivity].
      right; left; split; [assumption|reflexivity].
    + eexists; split; [right; right; repeat split; assumption | reflexivity].
Qed.

(** C5.  When the open fails, [ReadSetting] and [WriteSetting] return -1,
    print nothing on stdout and report the error by its OS code: ENOENT as
    an unknown key, EACCES as permission denied, any other code as an
    unknown error carrying that code.  ([ReadSetting] has already reported
    an empty key as unknown before it tries to open.) *)
Theorem open_failure_classified (fs : filesys) (st : state) (errno : Z) :
  (forall key : cstr,
     fopen_r fs (PROC_PATH ++ KeyToPath key) = Failed errno ->
     exists m,
       open_error_message ERR_UNKNOWN_READING errno (PathToKey key) m /\
       fst (ReadSetting fs key st) = -1 /\
       stdout (snd (ReadSetting fs key st)) = stdout st /\
       stderr (snd (ReadSetting fs key st)) =
         stderr st ++
         (if is_empty key then [ERR_INVALID_KEY key] else []) ++ [m]) /\
  (forall key value : cstr,
     key <> [] -> value <> [] -> ~ In "="%char key ->
     fopen_w fs (PROC_PATH ++ KeyToPath key) = Failed errno ->
     exists m,
       open_error_message ERR_UNKNOWN_WRITING errno (PathToKey key) m /\
       fst (WriteSetting fs (Some (key ++ lit "=" ++ value)) st) = -1 /\
       stdout (snd (WriteSetting fs (Some (key ++ lit "=" ++ value)) st))
         = stdout st /\
       stderr (snd (WriteSetting fs (Some (key ++ lit "=" ++ value)) st))
         = stderr st ++ [m] /\
       fs_log (snd (WriteSetting fs (Some (key ++ lit "=" ++ value)) st))
         = fs_log st ++ [Fopen (PROC_PATH ++ KeyToPath key) (lit "w")]).
Proof.
  split.
  - intros key Hopen. unfold ReadSetting.
    fold (KeyToPath key). fold (PathToKey key). rewrite Hopen.
    match goal with
    | |- context [record ?s ?e] => set (st1 := record s e)
    end.
    destruct (classify_errno ERR_UNKNOWN_READING errno (PathToKey key) st1)
      as (m & Hm & ->).
    exists m. split; [exact Hm|]. subst st1.
    destruct (is_empty key); simpl; repeat split; try reflexivity.
    now rewrite <- app_assoc.
  - intros key value Hk Hv Hno Hopen. unfold WriteSetting.
    cbn [lit list_ascii_of_string app].
    rewrite index_app by assumption.
    rewrite skipn_length_app, firstn_length_app.
    fold (KeyToPath key). fold (PathToKey key). rewrite Hopen.
    destruct key as [|k0 key]; [congruence|].
    destruct value as [|v0 value]; [congruence|].
    cbn [is_empty app length Nat.eqb orb].
    match goal with
    | |- context [record ?s ?e] => set (st1 := record s e)
    end.
    destruct (classify_errno ERR_UNKNOWN_WRITING errno
                (PathToKey (k0 :: key)) st1) as (m & Hm & ->).
    exists m. split; [exact Hm|]. subst st1. simpl. repeat split.
Qed.

Lemma open_failure_classified_witness :
  fopen_r sample_fs (PROC_PATH ++ KeyToPath (lit "net.b")) = Failed EACCES /\
  fopen_w sample_fs (PROC_PATH ++ KeyToPath (lit "net.b")) = Failed EACCES /\
  (exists m,
     open_error_message ERR_UNKNOWN_READING EACCES
       (PathToKey (lit "net.b")) m /\
     fst (ReadSetting sample_fs (lit "net.b") initial_state) = -1 /\
     stdout (snd (ReadSetting sample_fs (lit "net.b") initial_state)) = [] /\
     stderr (snd (ReadSetting sample_fs (lit "net.b") initial_state)) = [m]) /\
  (exists m,
     open_error_message ERR_UNKNOWN_WRITING EACCES
       (PathToKey (lit "net.b")) m /\
     fst (WriteSetting sample_fs (Some (lit "net.b=1")) initial_state) = -1 /\
     stdout (snd (WriteSetting sample_fs (Some (lit "net.b=1")) initial_state))
       = [] /\
     stderr (snd (WriteSetting sample_fs (Some (lit "net.b=1")) initial_state))
       = [m]).
Proof.
  assert (Hr : fopen_r sample_fs (PROC_PATH ++ KeyToPath (lit "net.b"))
               = Failed EACCES) by reflexivity.
  assert (Hw : fopen_w sample_fs (PROC_PATH ++ KeyToPath (lit "net.b"))
               = Failed EACCES) by reflexivity.
  split; [exact Hr|]. split; [exact Hw|].
  destruct (open_failure_classified sample_fs initial_state EACCES)
    as [Hread Hwrite].
  split.
  - destruct (Hread (lit "net.b") Hr) as (m & Hm & Hrc & Hout & Herr).
    exists m. repeat split; assumption.
  - assert (Hk : lit "net.b" <> []) by discriminate.
    assert (Hv : lit "1" <> []) by discriminate.
    assert (Hno : ~ In "="%char (lit "net.b")).
    { simpl. intros H.
      repeat (destruct H as [H|H]; [discriminate H|]). exact H. }
    destruct (Hwrite (lit "net.b") (lit "1") Hk Hv Hno Hw)
      as (m & Hm & Hrc & Hout & Herr & _).
    exists m. repeat split; assumption.
Defined.

(** C6.  A setting with no [=], or with nothing before or nothing after
    its first [=], makes [WriteSetting] return a nonzero code (-1 for the
    missing [=], -2 for the empty side) with the matching message, and the
    file system is not asked anything: the log of calls is unchanged, and
    so is stdout. *)
Theorem malformed_setting_rejected (fs : filesys) (setting : cstr)
    (st : state) :
  malformed setting ->
  fst (WriteSetting fs (Some setting) st) <> 0 /\
  fs_log (snd (WriteSetting fs (Some setting) st)) = fs_log st /\
  stdout (snd (WriteSetting fs (Some setting) st)) = stdout st /\
  (~ In "="%char setting ->
   fst (WriteSetting fs (Some setting) st) = -1 /\
   stderr (snd (WriteSetting fs (Some setting) st))
     = stderr st ++ [ERR_NO_EQUALS setting]) /\
  (In "="%char setting ->
   fst (WriteSetting fs (Some setting) st) = -2 /\
   stderr (snd (WriteSetting fs (Some setting) st))
     = stderr st ++ [ERR_MALFORMED_SETTING setting]).
Proof.
  intros [Hno | [[v ->] | [k [Hk ->]]]]; unfold WriteSetting.
  - rewrite index_not_in by assumption.
    cbn [fst snd eprint stdout fs_log stderr].
    split; [discriminate|]. split; [reflexivity|]. split; [reflexivity|].
    split; [intros _; split; reflexivity | intros H; tauto].
  - change (lit "=" ++ v) with ("="%char :: v). cbn [index].
    rewrite Ascii.eqb_refl. cbn [Nat.eqb]. rewrite orb_true_r.
    cbn [fst snd eprint stdout fs_log stderr].
    split; [discriminate|]. split; [reflexivity|]. split; [reflexivity|].
    split; [|intros _; split; reflexivity].
    intros H. exfalso. apply H. now left.
  - cbn [lit list_ascii_of_string].
    rewrite index_app by assumption. rewrite skipn_length_app.
    cbn [is_empty]. rewrite orb_true_r. cbn [orb].
    cbn [fst snd eprint stdout fs_log stderr].
    split; [discriminate|]. split; [reflexivity|]. split; [reflexivity|].
    split; [|intros _; split; reflexivity].
    intros H. exfalso. apply H. apply in_or_app. right. now left.
Qed.

Lemma malformed_setting_rejected_witness :
  malformed (lit "noequals") /\
  fst (WriteSetting sample_fs (Some (lit "noequals")) initial_state) <> 0 /\
  fs_log (snd (WriteSetting sample_fs (Some (lit "noequals")) initial_state))
    = [].
Proof.
  assert (H : malformed (lit "noequals")).
  { left. simpl. intros H.
    repeat (destruct H as [H|H]; [discriminate H|]). exact H. }
  split; [exact H|].
  destruct (malformed_setting_rejected sample_fs (lit "noequals")
              initial_state H) as (Hrc & Hlog & _).
  split; [exact Hrc | exact Hlog].
Defined.

(** ** Reading a file *)

Lemma fgets_chars_split (room : nat) :
  forall fp l r, fgets_chars room fp = (l, r) -> fp = l ++ r.
Proof.
  induction room as [|room IH]; intros fp l r; simpl.
  - intros [= <- <-]. reflexivity.
  - destruct fp as [|c fp]; [intros [= <- <-]; reflexivity|].
    destruct (Ascii.eqb c NL); [intros [= <- <-]; reflexivity|].
    destruct (fgets_chars room fp) as [l' r'] eqn:E.
    intros [= <- <-]. simpl. f_equal. now apply IH.
Qed.

Lemma fgets_chars_progress (room : nat) (c : ascii) (fp l r : cstr) :
  fgets_chars (S room) (c :: fp) = (l, r) -> (length r <= length fp)%nat.
Proof.
  intros H. apply fgets_chars_split in H as Hs.
  simpl in H. destruct (Ascii.eqb c NL).
  - injection H as <- <-. lia.
  - destruct (fgets_chars room fp) as [l' r'] eqn:E. injection H as <- <-.
    apply fgets_chars_split in E. subst fp. rewrite length_app. lia.
Qed.

(** A newline can only end what [fgets] stores, so cutting the string at
    its first newline removes every newline in it. *)
Lemma fgets_chars_cut (room : nat) :
  forall fp l r,
    fgets_chars room fp = (l, r) ->
    match index l NL with
    | Some nlptr => firstn nlptr l
    | None => l
    end = without_newlines l.
Proof.
  induction room as [|room IH]; intros fp l r; simpl.
  - intros [= <- <-]. reflexivity.
  - destruct fp as [|c fp]; [intros [= <- <-]; reflexivity|].
    destruct (Ascii.eqb c NL) eqn:Ec.
    + intros [= <- <-]. simpl. rewrite Ec. reflexivity.
    + destruct (fgets_chars room fp) as [l' r'] eqn:E.
      intros [= <- <-]. specialize (IH _ _ _ E).
      unfold without_newlines in *. cbn [index filter]. rewrite Ec.
      cbn [negb]. rewrite <- IH.
      destruct (index l' NL); reflexivity.
Qed.

Lemma without_newlines_app (a b : cstr) :
  without_newlines (a ++ b) = without_newlines a ++ without_newlines b.
Proof. apply filter_app. Qed.

Lemma print_nil (st : state) : print st [] = st.
Proof. destruct st. unfold print. simpl. now rewrite app_nil_r. Qed.

Lemma print_print (st : state) (a b : cstr) :
  print (print st a) b = print st (a ++ b).
Proof. unfold print. simpl. now rewrite app_assoc. Qed.

(** A buffer without NUL holds the string of all its characters. *)
Lemma c_str_id (s : cstr) : ~ In zero s -> c_str s = s.
Proof.
  induction s as [|c s IH]; [reflexivity|]. intros H. cbn [c_str].
  destruct (Ascii.eqb c zero) eqn:E.
  - apply Ascii.eqb_eq in E. subst c. exfalso. apply H. now left.
  - rewrite IH; [reflexivity|]. intros Hin. apply H. now right.
Qed.

Lemma no_nul_app (a b : cstr) :
  ~ In zero (a ++ b) -> ~ In zero a /\ ~ In zero b.
Proof.
  intros H. split; intros Hin; apply H; apply in_or_app; auto.
Qed.

(** With the name prefix off, the loop prints a file without NUL bytes as
    it is, and without its newlines when [PrintNewline] is off. *)
Lemma ReadSetting_while_bare (fuel : nat) :
  forall (fp outname : cstr) (st : state),
    PrintName st = false ->
    ~ In zero fp ->
    (length fp <= fuel)%nat ->
    ReadSetting_while fuel fp outname st
    = print st (if PrintNewline st then fp else without_newlines fp).
Proof.
  induction fuel as [|fuel IH]; intros fp outname st Hn Hnul Hlen.
  - destruct fp; [|simpl in Hlen; lia]. simpl.
    destruct (PrintNewline st); now rewrite print_nil.
  - destruct fp as [|c fp].
    + simpl. destruct (PrintNewline st); now rewrite print_nil.
    + cbn [ReadSetting_while fgets]. change (1024 - 1)%nat with (S 1022).
      destruct (fgets_chars (S 1022) (c :: fp)) as [inbuf fp'] eqn:E.
      cbv zeta. rewrite Hn.
      pose proof (fgets_chars_split _ _ _ _ E) as Hs.
      pose proof (fgets_chars_progress _ _ _ _ _ E) as Hp.
      pose proof (fgets_chars_cut _ _ _ _ E) as Hc.
      rewrite Hs in Hnul. apply no_nul_app in Hnul as [Hnul1 Hnul2].
      rewrite (c_str_id inbuf Hnul1).
      simpl in Hlen.
      rewrite IH; [| exact Hn | exact Hnul2 | lia].
      rewrite print_print. cbn [PrintNewline print]. rewrite Hs.
      destruct (PrintNewline st); cbn [negb].
      * reflexivity.
      * now rewrite Hc, without_newlines_app.
Qed.

(** C8, as the code has it.  With the name prefix off, [ReadSetting] copies
    a readable file that holds no NUL byte to stdout; under -b (newlines off
    too) the newline of every line is dropped, not only the last one.  A
    file holding ["1\n"] comes out as ["1"] under -b and as ["1\n"] under
    -n. *)
Theorem read_without_name (fs : filesys) (key content : cstr) (st : state) :
  fopen_r fs (PROC_PATH ++ KeyToPath key) = Done content ->
  PrintName st = false ->
  ~ In zero content ->
  fst (ReadSetting fs key st) = 0 /\
  stdout (snd (ReadSetting fs key st)) =
    stdout st ++
    (if PrintNewline st then content else without_newlines content) /\
  (content = lit "1" ++ [NL] ->
   stdout (snd (ReadSetting fs key st)) =
     stdout st ++ (if PrintNewline st then lit "1" ++ [NL] else lit "1")).
Proof.
  intros Hopen Hn Hnul.
  assert (H : ReadSetting fs key st =
              (0, print (record
                           (if is_empty key
                            then eprint st (ERR_INVALID_KEY key) else st)
                           (Fopen (PROC_PATH ++ KeyToPath key) (lit "r")))
                    (if PrintNewline st then content
                     else without_newlines content))).
  { unfold ReadSetting. fold (KeyToPath key). fold (PathToKey key).
    rewrite Hopen. f_equal. rewrite ReadSetting_while_bare.
    - destruct (is_empty key); reflexivity.
    - destruct (is_empty key); exact Hn.
    - exact Hnul.
    - lia. }
  rewrite H. cbn [fst snd].
  assert (Hout : forall s, stdout (print (record
                           (if is_empty key
                            then eprint st (ERR_INVALID_KEY key) else st)
                           (Fopen (PROC_PATH ++ KeyToPath key) (lit "r"))) s)
                 = stdout st ++ s).
  { intros s. destruct (is_empty key); reflexivity. }
  rewrite Hout. split; [reflexivity|]. split; [reflexivity|].
  intros ->. destruct (PrintNewline st); reflexivity.
Qed.

Lemma read_without_name_witness :
  stdout (snd (ReadSetting sample_fs (lit "version")
                 (set_flags initial_state false false))) = lit "1" /\
  stdout (snd (ReadSetting sample_fs (lit "version")
                 (set_flags initial_state false true))) = lit "1" ++ [NL].
Proof.
  assert (Hnul : ~ In zero (lit "1" ++ [NL])).
  { simpl. intros [H|[H|[]]]; discriminate H. }
  split.
  - exact (proj2 (proj2 (read_without_name sample_fs (lit "version")
                   (lit "1" ++ [NL]) (set_flags initial_state false false)
                   eq_refl eq_refl Hnul)) eq_refl).
  - exact (proj2 (proj2 (read_without_name sample_fs (lit "version")
                   (lit "1" ++ [NL]) (set_flags initial_state false true)
                   eq_refl eq_refl Hnul)) eq_refl).
Defined.

(** C8 as stated fails: under -b a file of two lines loses both newlines,
    where the claim keeps the first.  And a line that holds a NUL byte is
    printed up to that byte only: under -n the file [nul_content] comes
    out as ["abef\n"]. *)
Lemma newline_dropped_on_every_line :
  fopen_r sample_fs (PROC_PATH ++ KeyToPath (lit "net.a"))
    = Done (lit "1" ++ [NL] ++ lit "2" ++ [NL]) /\
  stdout (snd (ReadSetting sample_fs (lit "net.a")
                 (set_flags initial_state false false))) = lit "12" /\
  without_final_newline (lit "1" ++ [NL] ++ lit "2" ++ [NL])
    = lit "1" ++ [NL] ++ lit "2" /\
  stdout (snd (ReadSetting sample_fs (lit "net.a")
                 (set_flags initial_state false false)))
    <> without_final_newline (lit "1" ++ [NL] ++ lit "2" ++ [NL]) /\
  fopen_r nul_fs (PROC_PATH ++ KeyToPath (lit "nul")) = Done nul_content /\
  stdout (snd (ReadSetting nul_fs (lit "nul")
                 (set_flags initial_state false true)))
    = lit "abef" ++ [NL] /\
  stdout (snd (ReadSetting nul_fs (lit "nul")
                 (set_flags initial_state false true)))
    <> nul_content.
Proof.
  split; [reflexivity|]. split; [reflexivity|]. split; [reflexivity|].
  split; [discriminate|]. split; [reflexivity|]. split; [reflexivity|].
  discriminate.
Qed.

(** ** The preload file *)

Lemma phys_lines_nil (s : cstr) : phys_lines s = [] -> s = [].
Proof.
  destruct s as [|c s]; [reflexivity|]. simpl.
  destruct (Ascii.eqb c NL); [discriminate|].
  destruct (phys_lines s); discriminate.
Qed.

(** One [fgets] with room for the first physical line returns that line
    and leaves the others. *)
Lemma fgets_chars_phys (fp : cstr) :
  forall (room : nat) (l : cstr) (ls : list cstr),
    phys_lines fp = l :: ls ->
    (length l <= room)%nat ->
    exists r,
      fgets_chars room fp = (l, r) /\ phys_lines r = ls /\
      (length r < length fp)%nat.
Proof.
  induction fp as [|c fp IH]; intros room l ls; simpl; [discriminate|].
  destruct (Ascii.eqb c NL) eqn:Ec.
  - intros [= <- <-] Hlen. simpl in Hlen.
    destruct room as [|room]; [lia|]. simpl. rewrite Ec.
    exists fp. repeat split. lia.
  - destruct (phys_lines fp) as [|l' ls'] eqn:El.
    + intros [= <- <-] Hlen. simpl in Hlen.
      destruct room as [|room]; [lia|]. simpl. rewrite Ec.
      apply phys_lines_nil in El. subst fp.
      exists []. destruct room; simpl; repeat split; lia.
    + intros [= <- <-] Hlen. simpl in Hlen.
      destruct room as [|room]; [lia|]. simpl. rewrite Ec.
      destruct (IH room l' ls' eq_refl) as (r & -> & Hr & Hlt); [lia|].
      exists r. repeat split; [assumption | lia].
Qed.

Lemma Preload_numbered_cons (fs : filesys) (filename : cstr) (k : nat)
    (l : cstr) (ls : list cstr) (st : state) :
  Preload_numbered fs filename k (l :: ls) st
  = Preload_numbered fs filename (S k) ls
      (Preload_line fs filename (Z.of_nat k) l st).
Proof. reflexivity. Qed.

(** The counter does not wrap below [2^31]. *)
Lemma int_wrap_small (z : Z) :
  - 2 ^ 31 <= z < 2 ^ 31 -> int_wrap z = z.
Proof.
  intros H. unfold int_wrap. rewrite Z.mod_small; lia.
Qed.

(** When every line fits the buffer and the counter stays below [2^31],
    the loop handles the physical lines one by one and counts each of
    them. *)
Lemma Preload_while_numbered (fs : filesys) (filename : cstr) (fuel : nat) :
  forall (fp : cstr) (n : nat) (st : state),
    short_lines fp ->
    Z.of_nat n + Z.of_nat (length (phys_lines fp)) < 2 ^ 31 ->
    (length fp <= fuel)%nat ->
    Preload_while fuel fs filename fp (Z.of_nat n) st
    = Preload_numbered fs filename (S n) (phys_lines fp) st.
Proof.
  induction fuel as [|fuel IH]; intros fp n st Hshort Hcount Hlen.
  - destruct fp; [reflexivity | simpl in Hlen; lia].
  - destruct fp as [|c fp]; [reflexivity|].
    destruct (phys_lines (c :: fp)) as [|l ls] eqn:El.
    { apply phys_lines_nil in El. discriminate. }
    unfold short_lines in Hshort. rewrite El in Hshort.
    inversion Hshort as [|? ? Hl Hls]; subst.
    destruct (fgets_chars_phys _ 255 _ _ El Hl) as (r & Hf & Hr & Hlt).
    cbn [Preload_while fgets]. change (256 - 1)%nat with 255%nat.
    rewrite Hf. rewrite Preload_numbered_cons.
    cbn [length] in Hcount.
    rewrite int_wrap_small by lia.
    replace (Z.of_nat n + 1)%Z with (Z.of_nat (S n)) by lia.
    rewrite IH.
    + now rewrite Hr.
    + unfold short_lines. now rewrite Hr.
    + rewrite Hr. lia.
    + simpl in Hlen, Hlt. lia.
Qed.

(** *** Stripping *)

Lemma load_last (s : cstr) (c : ascii) :
  load (s ++ [c]) (length (s ++ [c]) - 1) = c.
Proof.
  rewrite length_app. simpl.
  replace (length s + 1 - 1)%nat with (length s) by lia.
  apply load_app.
Qed.

Lemma blank_is_space (c : ascii) : is_blank c = true -> is_space c = true.
Proof.
  unfold is_blank, is_space. intros H.
  apply orb_true_iff in H as [-> | ->]; [reflexivity|].
  now rewrite orb_true_r.
Qed.

Lemma blanks_spaces (s : cstr) : blanks s -> spaces s.
Proof.
  unfold blanks, spaces. intros H. eapply Forall_impl; [|exact H].
  apply blank_is_space.
Qed.

(** The first loop of [StripLeadingAndTrailingSpaces] removes a tail of
    white space after a character that is not white space. *)
Lemma strip_trailing_app (s : cstr) (z : ascii) (trail : cstr) :
  is_space z = false ->
  spaces trail ->
  strip_trailing ((s ++ [z]) ++ trail) (length ((s ++ [z]) ++ trail) - 1)
  = s ++ [z].
Proof.
  intros Hz. induction trail as [|x trail IH] using rev_ind; intros Hsp.
  - rewrite app_nil_r.
    destruct (length (s ++ [z]) - 1)%nat as [|t] eqn:Et; [reflexivity|].
    cbn [strip_trailing]. rewrite <- Et, load_last, Hz. reflexivity.
  - apply Forall_app in Hsp as [Hsp Hx]. inversion Hx as [|? ? Hx' _]; subst.
    rewrite app_assoc.
    set (buf := (s ++ [z]) ++ trail) in *.
    assert (Hlen : (length (buf ++ [x]) - 1 = S (length buf - 1))%nat).
    { rewrite length_app. subst buf. rewrite !length_app. simpl. lia. }
    rewrite Hlen. cbn [strip_trailing]. rewrite <- Hlen, load_last, Hx'.
    rewrite Hlen.
    replace (S (length buf - 1)) with (length buf)
      by (subst buf; rewrite !length_app; simpl; lia).
    rewrite firstn_length_app. apply IH. exact Hsp.
Qed.

Lemma skip_blanks_app (lead s : cstr) :
  blanks lead -> is_blank (hd zero s) = false -> skip_blanks (lead ++ s) = s.
Proof.
  intros Hl Hs. induction Hl as [|c lead Hc _ IH]; simpl.
  - destruct s as [|c s]; [reflexivity|]. simpl in *. now rewrite Hs.
  - now rewrite Hc.
Qed.

Lemma trimmed_last (s : cstr) :
  trimmed s -> exists s0 z, s = s0 ++ [z] /\ is_space z = false.
Proof.
  intros (Hne & _ & Hlast).
  destruct (exists_last Hne) as (s0 & z & ->).
  rewrite last_last in Hlast. now exists s0, z.
Qed.

(** A line made of blanks, a trimmed text and white space is stripped to
    the text. *)
Lemma strip_line (lead body trail : cstr) :
  blanks lead -> trimmed body -> spaces trail ->
  StripLeadingAndTrailingSpaces (lead ++ body ++ trail)
  = (lead ++ body, body).
Proof.
  intros Hl Hb Ht.
  destruct (trimmed_last body Hb) as (s0 & z & -> & Hz).
  destruct Hb as (_ & Hhd & _).
  unfold StripLeadingAndTrailingSpaces.
  destruct (lead ++ (s0 ++ [z]) ++ trail) as [|c rest] eqn:E.
  { apply app_eq_nil in E as [_ E]. apply app_eq_nil in E as [E _].
    now apply app_eq_nil in E as [_ E]. }
  rewrite <- E.
  replace (lead ++ (s0 ++ [z]) ++ trail)
    with (((lead ++ s0) ++ [z]) ++ trail)
    by (now rewrite <- !app_assoc).
  rewrite strip_trailing_app by assumption.
  rewrite <- app_assoc. now rewrite skip_blanks_app.
Qed.

(** *** Tokens *)

Lemma in_set_equals (c : ascii) : in_set c (lit "=") = Ascii.eqb c "=".
Proof.
  unfold in_set, lit. cbn [list_ascii_of_string existsb].
  apply orb_false_r.
Qed.

Lemma not_in_set (c : ascii) (set : cstr) :
  ~ In c set -> in_set c set = false.
Proof.
  unfold in_set. intros H. destruct (existsb (Ascii.eqb c) set) eqn:E; auto.
  apply existsb_exists in E as (x & Hx & Heq).
  apply Ascii.eqb_eq in Heq. subst x. tauto.
Qed.

Lemma no_equals (s : cstr) :
  ~ In "="%char s -> Forall (fun c => in_set c (lit "=") = false) s.
Proof.
  intros H. apply Forall_forall. intros c Hc. rewrite in_set_equals.
  destruct (Ascii.eqb c "=") eqn:E; [|reflexivity].
  apply Ascii.eqb_eq in E. subst c. tauto.
Qed.

Lemma skip_delims_id (c : ascii) (s delim : cstr) :
  in_set c delim = false -> skip_delims (c :: s) delim = c :: s.
Proof. intros H. simpl. now rewrite H. Qed.

Lemma take_token_all (tok delim : cstr) :
  Forall (fun c => in_set c delim = false) tok ->
  take_token tok delim = (tok, []).
Proof.
  induction 1 as [|c tok Hc _ IH]; simpl; [reflexivity|].
  now rewrite Hc, IH.
Qed.

Lemma take_token_app (tok : cstr) (d : ascii) (rest delim : cstr) :
  Forall (fun c => in_set c delim = false) tok ->
  in_set d delim = true ->
  take_token (tok ++ d :: rest) delim = (tok, rest).
Proof.
  intros Ht Hd. induction Ht as [|c tok Hc _ IH]; simpl.
  - now rewrite Hd.
  - now rewrite Hc, IH.
Qed.

Lemma strtok_whole (tok delim : cstr) :
  tok <> [] ->
  Forall (fun c => in_set c delim = false) tok ->
  strtok tok delim = (Some tok, []).
Proof.
  intros Hne Ht. unfold strtok.
  destruct tok as [|c tok]; [congruence|].
  inversion Ht as [|? ? Hc _]; subst.
  rewrite skip_delims_id by assumption. now rewrite take_token_all.
Qed.

Lemma strtok_split (tok : cstr) (d : ascii) (rest delim : cstr) :
  tok <> [] ->
  Forall (fun c => in_set c delim = false) tok ->
  in_set d delim = true ->
  strtok (tok ++ d :: rest) delim = (Some tok, rest).
Proof.
  intros Hne Ht Hd. unfold strtok.
  destruct tok as [|c tok]; [congruence|].
  inversion Ht as [|? ? Hc _]; subst.
  cbn [app]. rewrite skip_delims_id by assumption.
  change (c :: tok ++ d :: rest) with ((c :: tok) ++ d :: rest).
  now rewrite take_token_app.
Qed.

Lemma skip_delims_equals (eqs s : cstr) :
  Forall (fun c => c = "="%char) eqs ->
  skip_delims (eqs ++ s) (lit "=") = skip_delims s (lit "=").
Proof.
  induction 1 as [|c eqs Hc _ IH]; [reflexivity|]. subst c.
  cbn [app skip_delims].
  replace (in_set "=" (lit "=")) with true by reflexivity. exact IH.
Qed.

Lemma strtok_equals (eqs s : cstr) :
  Forall (fun c => c = "="%char) eqs ->
  strtok (eqs ++ s) (lit "=") = strtok s (lit "=").
Proof.
  intros H. unfold strtok. now rewrite skip_delims_equals.
Qed.

(** A stripped line that holds no [=] after its leading ones, or only a
    final one, gives no name, or a name and nothing after it. *)
Lemma strtok_one_sided (body : cstr) :
  one_sided body ->
  strtok body (lit "=") = (None, []) \/
  exists name, name <> [] /\ strtok body (lit "=") = (Some name, []).
Proof.
  intros (eqs & r & Heqs & Hr & [-> | ->]); rewrite strtok_equals by exact Heqs.
  - destruct r as [|c r]; [now left|]. right.
    exists (c :: r). split; [discriminate|].
    apply strtok_whole; [discriminate | now apply no_equals].
  - destruct r as [|c r]; [now left|]. right.
    exists (c :: r). split; [discriminate|].
    change (lit "=") with ["="%char] at 1.
    apply strtok_split; [discriminate | now apply no_equals | reflexivity].
Qed.

Lemma is_empty_false (s : cstr) : s <> [] -> is_empty s = false.
Proof. destruct s; [congruence | reflexivity]. Qed.

Lemma space_not_nul (c : ascii) : is_space c = true -> c <> zero.
Proof. intros H ->. discriminate H. Qed.

Lemma spaces_no_nul (s : cstr) : spaces s -> ~ In zero s.
Proof.
  intros H Hin. unfold spaces in H. rewrite Forall_forall in H.
  now apply (space_not_nul zero (H _ Hin)).
Qed.

(** A line without NUL is the string the code sees in the buffer. *)
Lemma c_str_line (lead body trail : cstr) :
  blanks lead -> spaces trail -> ~ In zero body ->
  c_str (lead ++ body ++ trail) = lead ++ body ++ trail.
Proof.
  intros Hl Ht Hb. apply c_str_id. intros Hin.
  apply in_app_or in Hin as [Hin|Hin].
  - now apply (spaces_no_nul lead (blanks_spaces _ Hl)).
  - apply in_app_or in Hin as [Hin|Hin]; [tauto|].
    now apply (spaces_no_nul trail Ht).
Qed.

Lemma Preload_line_one_sided (fs : filesys) (filename : cstr) (n : Z)
    (lead body trail : cstr) (st : state) :
  blanks lead -> spaces trail -> trimmed body -> ~ In zero body ->
  (2 <= length body)%nat -> is_comment body = false -> one_sided body ->
  Preload_line fs filename n (lead ++ body ++ trail) st
  = eprint st (WARN_BAD_LINE filename n).
Proof.
  intros Hl Ht Hb Hnul Hlen Hc Hone. unfold Preload_line. cbv zeta.
  rewrite c_str_line by assumption.
  rewrite strip_line by assumption. cbn [snd].
  apply Nat.ltb_ge in Hlen. rewrite Hlen.
  unfold is_comment in Hc. rewrite Hc.
  destruct (strtok_one_sided body Hone) as [-> | (name & Hne & ->)];
    [reflexivity|].
  now rewrite is_empty_false.
Qed.

Lemma strip_name (name mid : cstr) :
  trimmed name -> blanks mid ->
  fst (StripLeadingAndTrailingSpaces (name ++ mid)) = name.
Proof.
  intros Hn Hm.
  pose proof (strip_line [] name mid (Forall_nil _) Hn (blanks_spaces _ Hm))
    as H.
  cbn [app] in H. now rewrite H.
Qed.

Lemma blank_not_in (c : ascii) (set : cstr) :
  is_blank c = true -> ~ In SPC set -> ~ In TAB set -> in_set c set = false.
Proof.
  intros Hc Hs Ht. apply not_in_set. unfold is_blank in Hc.
  apply orb_true_iff in Hc as [H|H]; apply Ascii.eqb_eq in H; now subst.
Qed.

Lemma blanks_not_in (s set : cstr) :
  blanks s -> ~ In SPC set -> ~ In TAB set ->
  Forall (fun c => in_set c set = false) s.
Proof.
  intros Hb Hs Ht. eapply Forall_impl; [|exact Hb].
  intros c Hc. now apply blank_not_in.
Qed.

Lemma hd_app (a b : cstr) : a <> [] -> hd zero (a ++ b) = hd zero a.
Proof. destruct a; [congruence | reflexivity]. Qed.

Lemma load_0_app (a b : cstr) : a <> [] -> load (a ++ b) 0 = load a 0.
Proof. destruct a; [congruence | reflexivity]. Qed.

Lemma last_app (a b : cstr) : b <> [] -> last (a ++ b) zero = last b zero.
Proof.
  intros Hb. destruct (exists_last Hb) as (b0 & z & ->).
  now rewrite app_assoc, !last_last.
Qed.

Lemma Preload_line_setting (fs : filesys) (filename : cstr) (n : Z)
    (lead name mid pre value trail : cstr) (st : state) :
  blanks lead -> blanks mid -> blanks pre -> spaces trail ->
  trimmed name -> ~ In "="%char name -> is_comment name = false ->
  ~ In zero name ->
  trimmed value -> ~ In NL value -> ~ In CR value -> ~ In zero value ->
  Preload_line fs filename n
    (lead ++ (name ++ mid ++ lit "=" ++ pre ++ value) ++ trail) st
  = snd (WriteSetting fs (Some (name ++ lit "=" ++ value)) st).
Proof.
  intros Hl Hm Hp Ht Hn Hneq Hc Hnn Hv Hnl Hcr Hnv.
  assert (Hname : name <> []) by apply Hn.
  assert (Hvalue : value <> []) by apply Hv.
  set (body := name ++ mid ++ lit "=" ++ pre ++ value).
  assert (Hb : trimmed body).
  { subst body. split; [|split].
    - intros H. now apply app_eq_nil in H as [H _].
    - rewrite hd_app by assumption. apply Hn.
    - rewrite !app_assoc. rewrite last_app by assumption. apply Hv. }
  assert (Hnb : ~ In zero body).
  { subst body. intros Hin.
    apply in_app_or in Hin as [Hin|Hin]; [tauto|].
    apply in_app_or in Hin as [Hin|Hin];
      [now apply (spaces_no_nul mid (blanks_spaces _ Hm))|].
    apply in_app_or in Hin as [Hin|Hin];
      [simpl in Hin; destruct Hin as [Hin|[]]; discriminate Hin|].
    apply in_app_or in Hin as [Hin|Hin]; [|tauto].
    now apply (spaces_no_nul pre (blanks_spaces _ Hp)). }
  unfold Preload_line. cbv zeta. rewrite c_str_line by assumption.
  rewrite strip_line by assumption. cbn [snd].
  assert (Hlen : Nat.ltb (length body) 2 = false).
  { apply Nat.ltb_ge. subst body. destruct name; [congruence|].
    cbn [app length]. rewrite !length_app. simpl. lia. }
  rewrite Hlen.
  assert (Hcom : Ascii.eqb (load body 0) "#" || Ascii.eqb (load body 0) ";"
                 = false).
  { subst body. rewrite load_0_app by assumption. exact Hc. }
  rewrite Hcom.
  assert (Htok : strtok body (lit "=") = (Some (name ++ mid), pre ++ value)).
  { subst body.
    change (lit "=" ++ pre ++ value) with ("="%char :: pre ++ value).
    rewrite app_assoc. apply strtok_split.
    - intros H. now apply app_eq_nil in H as [H _].
    - apply Forall_app. split; [now apply no_equals|].
      apply blanks_not_in; [assumption | |];
        simpl; intros [H|[]]; discriminate H.
    - reflexivity. }
  rewrite Htok.
  rewrite is_empty_false
    by (intros H; now apply app_eq_nil in H as [H _]).
  rewrite strip_name by assumption.
  assert (Hval : strtok (pre ++ value) [NL; CR] = (Some (pre ++ value), [])).
  { apply strtok_whole.
    - intros H. now apply app_eq_nil in H as [_ H].
    - apply Forall_app. split.
      + apply blanks_not_in; [assumption | |];
          simpl; intros [H|[H|[]]]; discriminate H.
      + apply Forall_forall. intros c Hin. apply not_in_set.
        simpl. intros [<-|[<-|[]]]; tauto. }
  rewrite Hval.
  rewrite is_empty_false
    by (intros H; now apply app_eq_nil in H as [_ H]).
  rewrite skip_blanks_app; [reflexivity | assumption | apply Hv].
Qed.

(** *** The fuel of the two [fgets] loops *)

Lemma ReadSetting_while_any_fuel (f1 : nat) :
  forall (f2 : nat) (fp outname : cstr) (st : state),
    (length fp <= f1)%nat -> (length fp <= f2)%nat ->
    ReadSetting_while f1 fp outname st = ReadSetting_while f2 fp outname st.
Proof.
  induction f1 as [|f1 IH]; intros f2 fp outname st H1 H2.
  - destruct fp; [|simpl in H1; lia]. destruct f2; reflexivity.
  - destruct fp as [|c fp]; [destruct f2; reflexivity|].
    destruct f2 as [|f2]; [simpl in H2; lia|].
    cbn [ReadSetting_while fgets]. change (1024 - 1)%nat with (S 1022).
    destruct (fgets_chars (S 1022) (c :: fp)) as [inbuf fp'] eqn:E.
    pose proof (fgets_chars_progress _ _ _ _ _ E) as Hp.
    simpl in H1, H2. apply IH; lia.
Qed.

(** The loop of [ReadSetting] does not depend on the fuel once it covers
    the stream. *)
Lemma ReadSetting_while_fuel (fuel : nat) (fp outname : cstr) (st : state) :
  (length fp <= fuel)%nat ->
  ReadSetting_while fuel fp outname st
  = ReadSetting_while (length fp) fp outname st.
Proof. intros H. apply ReadSetting_while_any_fuel; lia. Qed.

Lemma Preload_while_any_fuel (fs : filesys) (filename : cstr) (f1 : nat) :
  forall (f2 : nat) (fp : cstr) (n : Z) (st : state),
    (length fp <= f1)%nat -> (length fp <= f2)%nat ->
    Preload_while f1 fs filename fp n st
    = Preload_while f2 fs filename fp n st.
Proof.
  induction f1 as [|f1 IH]; intros f2 fp n st H1 H2.
  - destruct fp; [|simpl in H1; lia]. destruct f2; reflexivity.
  - destruct fp as [|c fp]; [destruct f2; reflexivity|].
    destruct f2 as [|f2]; [simpl in H2; lia|].
    cbn [Preload_while fgets]. change (256 - 1)%nat with (S 254).
    destruct (fgets_chars (S 254) (c :: fp)) as [oneline fp'] eqn:E.
    pose proof (fgets_chars_progress _ _ _ _ _ E) as Hp.
    simpl in H1, H2. apply IH; lia.
Qed.

(** The loop of [Preload] does not depend on the fuel once it covers the
    stream. *)
Lemma Preload_while_fuel (fs : filesys) (filename : cstr) (fuel : nat)
    (fp : cstr) (n : Z) (st : state) :
  (length fp <= fuel)%nat ->
  Preload_while fuel fs filename fp n st
  = Preload_while (length fp) fs filename fp n st.
Proof. intros H. apply Preload_while_any_fuel; lia. Qed.

(** C7, as the code has it.  When every physical line of the preload file
    fits one read of 255 characters and there are fewer than [2^31] lines,
    [Preload] handles the physical lines in order and numbers them from 1,
    comment and blank lines included.  A stripped line without NUL, of two
    characters or more, that is not a comment and that holds no [=] after
    its leading ones, or only a final one (so: no [=] at all, nothing after
    its first [=], or nothing before it and no [name=value] after the
    leading [=]), produces the warning with the file name and the number of
    the line and nothing else, and the lines after it are still handled.  A
    line [name = value] without NUL, with blanks around both, is handed to
    [WriteSetting] as [name=value].  For the four-line sample this is one
    write of [foo.bar=42] and one warning for line 4. *)
Theorem preload_lines_numbered_and_dispatched (fs : filesys)
    (filename : cstr) :
  (forall (content : cstr) (st : state),
     fopen_r fs filename = Done content ->
     short_lines content ->
     Z.of_nat (length (phys_lines content)) < 2 ^ 31 ->
     Preload fs filename st
     = Preload_numbered fs filename 1 (phys_lines content)
         (record st (Fopen filename (lit "r")))) /\
  (forall (n : Z) (lead body trail : cstr) (st : state),
     blanks lead -> spaces trail -> trimmed body -> ~ In zero body ->
     (2 <= length body)%nat -> is_comment body = false -> one_sided body ->
     Preload_line fs filename n (lead ++ body ++ trail) st
     = eprint st (WARN_BAD_LINE filename n)) /\
  (forall (n : Z) (lead name mid pre value trail : cstr) (st : state),
     blanks lead -> blanks mid -> blanks pre -> spaces trail ->
     trimmed name -> ~ In "="%char name -> is_comment name = false ->
     ~ In zero name ->
     trimmed value -> ~ In NL value -> ~ In CR value -> ~ In zero value ->
     Preload_line fs filename n
       (lead ++ (name ++ mid ++ lit "=" ++ pre ++ value) ++ trail) st
     = snd (WriteSetting fs (Some (name ++ lit "=" ++ value)) st)) /\
  Preload sample_fs DEFAULT_PRELOAD initial_state
  = mkState true true
      (lit "foo.bar = 42" ++ [NL])
      [WARN_BAD_LINE DEFAULT_PRELOAD 4]
      [Fopen DEFAULT_PRELOAD (lit "r");
       Fopen (lit "/proc/sys/foo/bar") (lit "w");
       Fwrite (lit "/proc/sys/foo/bar") (lit "42" ++ [NL])].
Proof.
  split; [|split; [|split]].
  - intros content st Hopen Hshort Hcount. unfold Preload. rewrite Hopen.
    apply (Preload_while_numbered fs filename (length content) content 0);
      [assumption | | lia].
    change (Z.of_nat 0) with 0. lia.
  - intros. now apply Preload_line_one_sided.
  - intros. now apply Preload_line_setting.
  - reflexivity.
Qed.

Lemma preload_lines_numbered_and_dispatched_witness :
  Preload sample_fs DEFAULT_PRELOAD initial_state
  = Preload_numbered sample_fs DEFAULT_PRELOAD 1 (phys_lines sample_conf)
      (record initial_state (Fopen DEFAULT_PRELOAD (lit "r"))) /\
  Preload_line sample_fs DEFAULT_PRELOAD 4 (lit "badline" ++ [NL])
    initial_state
  = eprint initial_state (WARN_BAD_LINE DEFAULT_PRELOAD 4) /\
  Preload_line sample_fs DEFAULT_PRELOAD 3 (lit "foo.bar = 42" ++ [NL])
    initial_state
  = snd (WriteSetting sample_fs (Some (lit "foo.bar=42")) initial_state).
Proof.
  destruct (preload_lines_numbered_and_dispatched sample_fs DEFAULT_PRELOAD)
    as (Hnum & Hbad & Hgood & _).
  split; [|split].
  - apply Hnum; [reflexivity | | reflexivity].
    unfold short_lines. simpl. repeat constructor; simpl; lia.
  - apply (Hbad 4%Z [] (lit "badline") [NL] initial_state).
    + constructor.
    + repeat constructor.
    + split; [discriminate | split; reflexivity].
    + simpl. intros H.
      repeat (destruct H as [H|H]; [discriminate H|]). exact H.
    + simpl. lia.
    + reflexivity.
    + exists [], (lit "badline"). split; [constructor|].
      split; [|now left]. simpl. intros H.
      repeat (destruct H as [H|H]; [discriminate H|]). exact H.
  - apply (Hgood 3%Z [] (lit "foo.bar") (lit " ") (lit " ") (lit "42") [NL]
             initial_state).
    + constructor.
    + repeat constructor.
    + repeat constructor.
    + repeat constructor.
    + split; [discriminate | split; reflexivity].
    + simpl. intros H.
      repeat (destruct H as [H|H]; [discriminate H|]). exact H.
    + reflexivity.
    + simpl. intros H.
      repeat (destruct H as [H|H]; [discriminate H|]). exact H.
    + split; [discriminate | split; reflexivity].
    + simpl. intros H.
      repeat (destruct H as [H|H]; [discriminate H|]). exact H.
    + simpl. intros H.
      repeat (destruct H as [H|H]; [discriminate H|]). exact H.
    + simpl. intros H.
      repeat (destruct H as [H|H]; [discriminate H|]). exact H.
Defined.

(** C7 as stated fails.  A first line of 300 characters is read in two
    pieces and counted twice, so the warning for [badline], the second
    physical line, carries the number 3.  The line [=a=b], with nothing
    before its first [=], is written as [a=b] without a warning.  A value
    that holds a NUL byte is cut there: [a=1<NUL>junk] is written as
    [a=1].  And the counter wraps: the line read when it stands at
    [2^31 - 1] is numbered [-2^31]. *)
Lemma long_line_shifts_line_numbers :
  phys_lines long_conf
    = [repeat "#"%char 300 ++ [NL]; lit "badline" ++ [NL]] /\
  stderr (Preload long_fs DEFAULT_PRELOAD initial_state)
    = [WARN_BAD_LINE DEFAULT_PRELOAD 3] /\
  stderr (Preload long_fs DEFAULT_PRELOAD initial_state)
    <> [WARN_BAD_LINE DEFAULT_PRELOAD 2] /\
  Preload_line long_fs DEFAULT_PRELOAD 1 (lit "=a=b" ++ [NL]) initial_state
    = mkState true true (lit "a = b" ++ [NL]) []
        [Fopen (lit "/proc/sys/a") (lit "w");
         Fwrite (lit "/proc/sys/a") (lit "b" ++ [NL])] /\
  Preload_line long_fs DEFAULT_PRELOAD 1
    (lit "a=1" ++ [zero] ++ lit "junk" ++ [NL]) initial_state
    = mkState true true (lit "a = 1" ++ [NL]) []
        [Fopen (lit "/proc/sys/a") (lit "w");
         Fwrite (lit "/proc/sys/a") (lit "1" ++ [NL])] /\
  Preload_while 8 long_fs DEFAULT_PRELOAD (lit "badline" ++ [NL])
    2147483647 initial_state
    = eprint initial_state (WARN_BAD_LINE DEFAULT_PRELOAD (-2147483648)).
Proof.
  split; [vm_compute; reflexivity|].
  split; [vm_compute; reflexivity|].
  split; [vm_compute; discriminate|].
  split; [reflexivity|]. split; [reflexivity|].
  vm_compute; reflexivity.
Qed.

(** ** The dispatcher *)

Lemma main_for_empty_argument (fuel : nat) (fs : filesys) (me : cstr)
    (pre post : list cstr) :
  forall (sw wm : bool) (rc : Z) (st : state),
    main_for fuel fs me (pre ++ [] :: post) sw wm rc st
    = main_for fuel fs me pre sw wm rc st.
Proof.
  induction pre as [|arg pre IH]; intros sw wm rc st; [reflexivity|].
  cbn [app main_for].
  destruct (is_empty arg); [reflexivity|].
  destruct (sw && Ascii.eqb (load arg 0) "-").
  - destruct (Ascii.eqb (load arg 1) "b"); [apply IH|].
    destruct (Ascii.eqb (load arg 1) "n"); [apply IH|].
    destruct (Ascii.eqb (load arg 1) "w"); [apply IH|].
    destruct (Ascii.eqb (load arg 1) "p"); [|reflexivity].
    destruct pre; reflexivity.
  - destruct wm.
    + destruct (WriteSetting fs (Some arg) st). apply IH.
    + destruct (ReadSetting fs arg st). apply IH.
Qed.

(** C10.  An empty-string argument ends the argument loop: the arguments
    after it are never looked at, and the run is the run on the arguments
    before it, with the status accumulated over them. *)
Theorem empty_argument_ends_the_loop (fuel : nat) (fs : filesys)
    (argv0 : cstr) (pre post : list cstr) :
  (forall (sw wm : bool) (rc : Z) (st : state),
     main_for fuel fs (basename argv0) (pre ++ [] :: post) sw wm rc st
     = main_for fuel fs (basename argv0) pre sw wm rc st) /\
  main fuel fs argv0 (pre ++ [] :: post)
  = main_for fuel fs (basename argv0) pre true false 0 initial_state.
Proof.
  split; [apply main_for_empty_argument|].
  unfold main.
  replace (Nat.ltb (1 + length (pre ++ [] :: post)) 2) with false.
  - apply main_for_empty_argument.
  - symmetry. apply Nat.ltb_ge. rewrite length_app. simpl. lia.
Qed.

(** In read mode the codes of [ReadSetting] are dropped: the loop returns
    the code it started with. *)
Lemma read_mode_status (fuel : nat) (fs : filesys) (me : cstr)
    (argv : list cstr) :
  forall (rc : Z) (st : state),
    exists st', main_for fuel fs me argv false false rc st = Some (rc, st').
Proof.
  induction argv as [|arg argv IH]; intros rc st; [now exists st|].
  cbn [main_for andb].
  destruct (is_empty arg); [now exists st|].
  destruct (ReadSetting fs arg st) as [rc1 st1]. apply IH.
Qed.

(** In write mode the status is the code of the last setting alone. *)
Lemma write_mode_status_is_last (fuel : nat) (fs : filesys) (me : cstr)
    (args : list cstr) (final : cstr) :
  Forall (fun a => a <> []) args -> final <> [] ->
  forall (rc : Z) (st : state),
    exists st1,
      main_for fuel fs me (args ++ [final]) false true rc st
      = Some (WriteSetting fs (Some final) st1).
Proof.
  intros Hargs Hfinal.
  induction Hargs as [|arg args Harg _ IH]; intros rc st.
  - exists st. cbn [app main_for andb].
    rewrite is_empty_false by assumption.
    now destruct (WriteSetting fs (Some final) st).
  - cbn [app main_for andb]. rewrite is_empty_false by assumption.
    match goal with
    | |- context [WriteSetting fs ?a st] =>
        destruct (WriteSetting fs a st) as [rc1 st1]
    end.
    apply IH.
Qed.

(** C2, at a failing input.  In write mode with [net.b=1] refused and
    [foo.bar=1] written after it, [main] returns 0: the code of the last
    setting replaces the code of the one that failed. *)
Theorem earlier_write_failure_lost :
  fst (WriteSetting sample_fs (Some (lit "net.b=1")) initial_state) = (-1)%Z /\
  main 0 sample_fs (lit "/sbin/sysctl")
       [lit "-w"; lit "net.b=1"; lit "foo.bar=1"]
  = Some (0%Z,
          mkState true true
            (lit "foo.bar = 1" ++ [NL])
            [ERR_PERMISSION_DENIED (lit "net.b")]
            [Fopen (lit "/proc/sys/net/b") (lit "w");
             Fopen (lit "/proc/sys/foo/bar") (lit "w");
             Fwrite (lit "/proc/sys/foo/bar") (lit "1" ++ [NL])]) /\
  exit_status 0 = 0%Z.
Proof. split; [reflexivity|]. split; reflexivity. Qed.

(** ** The enumerator *)

(** The loop uses the state a recursive call returns and never its code:
    two recursions that differ in their codes only give the same result. *)
Lemma recursive_code_dropped (rec1 rec2 : cstr -> state -> option (Z * state))
    (fs : filesys) (path : cstr) (entries : list cstr) :
  (forall p st, option_map snd (rec1 p st) = option_map snd (rec2 p st)) ->
  forall (rc : Z) (st : state),
    DisplayAll_while rec1 fs path entries rc st
    = DisplayAll_while rec2 fs path entries rc st.
Proof.
  intros Hrec. induction entries as [|d_name entries IH]; intros rc st;
    [reflexivity|].
  cbn [DisplayAll_while]. destruct (stat fs (path ++ d_name)) as [e|[|]].
  - apply IH.
  - match goal with
    | |- context [rec1 ?p ?s] => specialize (Hrec p s);
        destruct (rec1 p s) as [[c1 s1]|], (rec2 p s) as [[c2 s2]|]
    end; try discriminate; [|reflexivity].
    injection Hrec as ->. apply IH.
  - match goal with
    | |- context [ReadSetting fs ?k ?s] =>
        destruct (ReadSetting fs k s) as [rc1 st1]
    end.
    apply IH.
Qed.

(** C1, at a failing input.  Under the root, [version] and [net/a] are
    read and [net/b] is refused; all three opens are attempted, the refusal
    is reported, and [DisplayAll] still returns 0: the code of the
    recursive call on [net/] is dropped. *)
Theorem subtree_failure_not_in_status :
  fst (ReadSetting sample_fs (lit "net/b") initial_state) = (-1)%Z /\
  DisplayAll 2 sample_fs false PROC_PATH initial_state
  = Some (0%Z,
          mkState true true
            (lit "net.a = 1" ++ [NL] ++ lit "net.a = 2" ++ [NL] ++
             lit "version = 1" ++ [NL])
            [ERR_PERMISSION_DENIED (lit "net.b")]
            [Opendir (lit "/proc/sys/");
             Stat (lit "/proc/sys/net");
             Opendir (lit "/proc/sys/net/");
             Stat (lit "/proc/sys/net/a");
             Fopen (lit "/proc/sys/net/a") (lit "r");
             Stat (lit "/proc/sys/net/b");
             Fopen (lit "/proc/sys/net/b") (lit "r");
             Stat (lit "/proc/sys/version");
             Fopen (lit "/proc/sys/version") (lit "r")]).
Proof. split; reflexivity. Qed.

(** C9, at failing inputs.  The first two names of the directory stream
    are dropped whatever they are.  When the stream has no dot entries, the
    files [a] and [b] are never looked at and only [c] is read; when the
    file [a] comes before dot and dot-dot, [a] and dot are dropped and
    dot-dot is taken for a subdirectory and opened. *)
Theorem first_two_entries_skipped_by_position :
  DisplayAll 1 nodots_fs false PROC_PATH initial_state
  = Some (0%Z,
          mkState true true (lit "c = 3" ++ [NL]) []
            [Opendir (lit "/proc/sys/");
             Stat (lit "/proc/sys/c");
             Fopen (lit "/proc/sys/c") (lit "r")]) /\
  DisplayAll 2 dotslast_fs false PROC_PATH initial_state
  = Some (0%Z,
          mkState true true [] [ERR_OPENING_DIR (lit "/proc/sys/../")]
            [Opendir (lit "/proc/sys/");
             Stat (lit "/proc/sys/..");
             Opendir (lit "/proc/sys/../")]).
Proof. split; reflexivity. Qed.

(** * Further properties *)

(** ** The key transcoder *)

Lemma swap_delims_length (old new : ascii) (s : cstr) :
  length (swap_delims old new s) = length s.
Proof. apply length_map. Qed.

Lemma swap_delims_no_nul (old new : ascii) (s : cstr) :
  old <> zero -> new <> zero -> ~ In zero s ->
  ~ In zero (swap_delims old new s).
Proof.
  intros Ho Hn Hs Hin. unfold swap_delims in Hin.
  apply in_map_iff in Hin as (c & Hc & Hin).
  assert (Hcz : c <> zero) by (intros ->; contradiction).
  destruct (in_set c DELIMS); [|congruence].
  unfold swap_char in Hc.
  destruct (Ascii.eqb c old); [congruence|].
  destruct (Ascii.eqb c new); congruence.
Qed.

(** X1.  [slashdot] works in place and never changes the length of the
    string: for two characters that are not NUL, the buffer holds no NUL
    afterwards and as many characters as before. *)
Theorem slashdot_keeps_length (p : cstr) (old new : ascii) :
  ~ In zero p -> old <> zero -> new <> zero ->
  ~ In zero (slashdot p old new) /\
  length (slashdot p old new) = length p.
Proof.
  intros Hp Ho Hn. rewrite slashdot_cases.
  destruct (first_delim p) as [d|]; [|split; [exact Hp | reflexivity]].
  destruct (Ascii.eqb d new); [split; [exact Hp | reflexivity]|].
  split; [now apply swap_delims_no_nul | apply swap_delims_length].
Qed.

Lemma slashdot_keeps_length_witness :
  ~ In zero (slashdot (lit "net.ipv4.ip_forward") "." "/") /\
  length (slashdot (lit "net.ipv4.ip_forward") "." "/") = 19%nat.
Proof.
  apply (slashdot_keeps_length (lit "net.ipv4.ip_forward") "." "/").
  - simpl. intros H.
    repeat (destruct H as [H|H]; [discriminate H|]). exact H.
  - discriminate.
  - discriminate.
Defined.

Lemma swap_char_sym (c : ascii) :
  swap_char "/" "." c = swap_char "." "/" c.
Proof.
  unfold swap_char.
  destruct (Ascii.eqb c "/") eqn:Es, (Ascii.eqb c ".") eqn:Ed;
    try reflexivity.
  apply Ascii.eqb_eq in Es, Ed. subst c. discriminate.
Qed.

Lemma swap_all_sym (s : cstr) : swap_all "/" "." s = swap_all "." "/" s.
Proof. apply map_ext, swap_char_sym. Qed.

Lemma swap_all_twice (s : cstr) :
  swap_all "." "/" (swap_all "." "/" s) = s.
Proof.
  unfold swap_all. rewrite map_map. rewrite <- (map_id s) at 2.
  apply map_ext. intros c. rewrite <- (swap_char_sym (swap_char "." "/" c)).
  apply swap_char_dot_slash.
Qed.

Lemma first_delim_swap_all (s : cstr) :
  first_delim (swap_all "." "/" s)
  = option_map (swap_char "." "/") (first_delim s).
Proof.
  induction s as [|c s IH]; [reflexivity|].
  unfold swap_all in *. cbn [map first_delim]. rewrite !in_DELIMS.
  unfold swap_char at 1 2.
  destruct (Ascii.eqb c ".") eqn:Ed.
  - apply Ascii.eqb_eq in Ed. subst c. reflexivity.
  - destruct (Ascii.eqb c "/") eqn:Es.
    + apply Ascii.eqb_eq in Es. subst c. reflexivity.
    + rewrite Es, Ed. exact IH.
Qed.

Lemma swap_all_no_delim (s : cstr) :
  first_delim s = None -> swap_all "." "/" s = s.
Proof.
  induction s as [|c s IH]; [reflexivity|].
  cbn [first_delim]. rewrite in_DELIMS.
  destruct (Ascii.eqb c "/") eqn:Es; [discriminate|].
  destruct (Ascii.eqb c ".") eqn:Ed; [discriminate|]. cbn [orb].
  intros E. unfold swap_all in *. cbn [map]. unfold swap_char at 1.
  rewrite Ed, Es. f_equal. now apply IH.
Qed.

(** Both spellings of a name give the same path and the same key. *)
Lemma KeyToPath_swap_all (s : cstr) :
  KeyToPath (swap_all "." "/" s) = KeyToPath s.
Proof.
  rewrite !KeyToPath_cases, first_delim_swap_all.
  destruct (first_delim s) as [d|] eqn:E; cbn [option_map].
  - destruct (first_delim_in _ _ E) as [-> | ->]; cbn.
    + apply swap_all_twice.
    + reflexivity.
  - now apply swap_all_no_delim.
Qed.

Lemma PathToKey_swap_all (s : cstr) :
  PathToKey (swap_all "." "/" s) = PathToKey s.
Proof.
  rewrite !PathToKey_cases, first_delim_swap_all.
  destruct (first_delim s) as [d|] eqn:E; cbn [option_map].
  - destruct (first_delim_in _ _ E) as [-> | ->]; cbn.
    + rewrite swap_all_sym. reflexivity.
    + rewrite !swap_all_sym. apply swap_all_twice.
  - now apply swap_all_no_delim.
Qed.

(** X2.  The two conversions are stable: a path is not changed by
    [KeyToPath], a key is not changed by [PathToKey], and each conversion
    gives the same result on a name and on its converted form. *)
Theorem transcoder_stable (s : cstr) :
  KeyToPath (KeyToPath s) = KeyToPath s /\
  PathToKey (PathToKey s) = PathToKey s /\
  KeyToPath (PathToKey s) = KeyToPath s /\
  PathToKey (KeyToPath s) = PathToKey s.
Proof.
  assert (HK : KeyToPath s = s \/ KeyToPath s = swap_all "." "/" s).
  { rewrite KeyToPath_cases. destruct (first_delim s) as [d|]; auto.
    destruct (Ascii.eqb d "."); auto. }
  assert (HP : PathToKey s = s \/ PathToKey s = swap_all "." "/" s).
  { rewrite PathToKey_cases. destruct (first_delim s) as [d|]; auto.
    destruct (Ascii.eqb d "/"); auto. rewrite swap_all_sym. auto. }
  repeat split.
  - destruct HK as [H|H]; rewrite H at 1; auto using KeyToPath_swap_all.
  - destruct HP as [H|H]; rewrite H at 1; auto using PathToKey_swap_all.
  - destruct HP as [H|H]; rewrite H; auto using KeyToPath_swap_all.
  - destruct HK as [H|H]; rewrite H; auto using PathToKey_swap_all.
Qed.

(** X3.  [ReadSetting] does the same on the dotted and on the slashed
    spelling of a key: the same file is opened and the same name shown. *)
Theorem read_accepts_both_spellings (fs : filesys) (key : cstr)
    (st : state) :
  ReadSetting fs (swap_all "." "/" key) st = ReadSetting fs key st.
Proof.
  unfold ReadSetting.
  fold (KeyToPath (swap_all "." "/" key)) (KeyToPath key)
       (PathToKey (swap_all "." "/" key)) (PathToKey key).
  rewrite KeyToPath_swap_all, PathToKey_swap_all.
  destruct key; reflexivity.
Qed.

Lemma swap_all_keeps_equals (key : cstr) :
  ~ In "="%char key -> ~ In "="%char (swap_all "." "/" key).
Proof.
  intros H Hin. apply H. unfold swap_all in Hin.
  apply in_map_iff in Hin as (c & Hc & Hin).
  unfold swap_char in Hc.
  destruct (Ascii.eqb c "."); [discriminate|].
  destruct (Ascii.eqb c "/"); [discriminate|]. now subst.
Qed.

(** The two names [WriteSetting] derives from a setting [key=value]. *)
Lemma WriteSetting_split (fs : filesys) (key value : cstr) (st : state) :
  key <> [] -> value <> [] -> ~ In "="%char key ->
  WriteSetting fs (Some (key ++ lit "=" ++ value)) st =
  let tmpname := PROC_PATH ++ KeyToPath key in
  let st1 := record st (Fopen tmpname (lit "w")) in
  match fopen_w fs tmpname with
  | Failed errno =>
      (-1,
       if errno =? ENOENT then eprint st1 (ERR_INVALID_KEY (PathToKey key))
       else if errno =? EACCES then
         eprint st1 (ERR_PERMISSION_DENIED (PathToKey key))
       else eprint st1 (ERR_UNKNOWN_WRITING errno (PathToKey key)))
  | Done _ =>
      (0,
       let st2 := record st1 (Fwrite tmpname (value ++ [NL])) in
       if PrintName st2 then
         print st2 (PathToKey key ++ lit " = " ++ value ++ [NL])
       else if PrintNewline st2 then print st2 (value ++ [NL])
       else print st2 value)
  end.
Proof.
  intros Hk Hv Hno. unfold WriteSetting.
  cbn [lit list_ascii_of_string app].
  rewrite index_app by assumption.
  rewrite skipn_length_app, firstn_length_app.
  destruct key as [|k0 key]; [congruence|].
  destruct value as [|v0 value]; [congruence|].
  reflexivity.
Qed.

(** X4.  [WriteSetting] does the same on the dotted and on the slashed
    spelling of the key of a setting with a key and a value. *)
Theorem write_accepts_both_spellings (fs : filesys) (key value : cstr)
    (st : state) :
  key <> [] -> value <> [] -> ~ In "="%char key ->
  WriteSetting fs (Some (swap_all "." "/" key ++ lit "=" ++ value)) st
  = WriteSetting fs (Some (key ++ lit "=" ++ value)) st.
Proof.
  intros Hk Hv Hno.
  rewrite !WriteSetting_split; auto using swap_all_keeps_equals.
  - now rewrite KeyToPath_swap_all, PathToKey_swap_all.
  - destruct key; [congruence | discriminate].
Qed.

Lemma write_accepts_both_spellings_witness :
  WriteSetting sample_fs (Some (lit "foo/bar=1")) initial_state
  = WriteSetting sample_fs (Some (lit "foo.bar=1")) initial_state.
Proof.
  apply (write_accepts_both_spellings sample_fs (lit "foo.bar") (lit "1")
           initial_state).
  - discriminate.
  - discriminate.
  - simpl. intros H.
    repeat (destruct H as [H|H]; [discriminate H|]). exact H.
Defined.

(** ** Writing a setting *)



(** X6.  Every call of [WriteSetting] on a string ends in one of two ways.
    Either it returns 0, has opened one file and written to it, and stderr
    is untouched; or it returns -1 or -2, stdout is untouched, exactly one
    message has gone to stderr, and nothing was written: the file system
    was not touched, or one open failed. *)
Theorem write_outcomes (fs : filesys) (setting : cstr) (st : state) :
  (fst (WriteSetting fs (Some setting) st) = 0 /\
   stderr (snd (WriteSetting fs (Some setting) st)) = stderr st /\
   exists path data,
     fs_log (snd (WriteSetting fs (Some setting) st))
     = fs_log st ++ [Fopen path (lit "w"); Fwrite path data]) \/
  ((fst (WriteSetting fs (Some setting) st) = -1 \/
    fst (WriteSetting fs (Some setting) st) = -2) /\
   stdout (snd (WriteSetting fs (Some setting) st)) = stdout st /\
   (exists m,
      stderr (snd (WriteSetting fs (Some setting) st)) = stderr st ++ [m]) /\
   (fs_log (snd (WriteSetting fs (Some setting) st)) = fs_log st \/
    exists path,
      fs_log (snd (WriteSetting fs (Some setting) st))
      = fs_log st ++ [Fopen path (lit "w")])).
Proof.
  unfold WriteSetting.
  destruct (index setting "=") as [equals|].
  2:{ right. cbn. split; [now left|]. split; [reflexivity|].
      split; [eexists; reflexivity | now left]. }
  destruct (is_empty setting || is_empty (skipn (equals + 1) setting)
            || Nat.eqb equals 0).
  { right. cbn. split; [now right|]. split; [reflexivity|].
    split; [eexists; reflexivity | now left]. }
  match goal with
  | |- context [fopen_w fs ?p] => destruct (fopen_w fs p) as [errno|[]]
  end.
  - right. split; [now left|].
    match goal with
    | |- context [ERR_UNKNOWN_WRITING errno ?o] =>
        match goal with
        | |- context [eprint ?s (ERR_INVALID_KEY o)] =>
            destruct (classify_errno ERR_UNKNOWN_WRITING errno o s)
              as (m & _ & Hm)
        end
    end.
    cbn [snd]. rewrite Hm. cbn.
    split; [reflexivity|]. split; [eexists; reflexivity|].
    right. eexists. reflexivity.
  - left. cbn [fst snd]. split; [reflexivity|].
    cbn [PrintName PrintNewline record].
    destruct (PrintName st), (PrintNewline st); cbn;
      rewrite <- ?app_assoc; (split; [reflexivity|]);
      do 2 eexists; reflexivity.
Qed.

(** ** Reading a setting *)

(** The loop of [ReadSetting] only prints on stdout. *)
Lemma ReadSetting_while_keeps (fuel : nat) :
  forall (fp outname : cstr) (st : state),
    fs_log (ReadSetting_while fuel fp outname st) = fs_log st /\
    stderr (ReadSetting_while fuel fp outname st) = stderr st /\
    PrintName (ReadSetting_while fuel fp outname st) = PrintName st /\
    PrintNewline (ReadSetting_while fuel fp outname st) = PrintNewline st.
Proof.
  induction fuel as [|fuel IH]; intros fp outname st; [repeat split|].
  cbn [ReadSetting_while]. destruct (fgets 1024 fp) as [[inbuf fp']|];
    [|repeat split].
  match goal with
  | |- context [ReadSetting_while fuel fp' outname ?s] =>
      destruct (IH fp' outname s) as (H1 & H2 & H3 & H4);
      rewrite H1, H2, H3, H4
  end.
  destruct (PrintName st) eqn:E; cbn; rewrite ?E; repeat split.
Qed.

Lemma ReadSetting_code (fs : filesys) (key : cstr) (st : state) :
  fst (ReadSetting fs key st) = read_code fs key.
Proof.
  unfold ReadSetting, read_code. fold (KeyToPath key).
  destruct (fopen_r fs (PROC_PATH ++ KeyToPath key)); reflexivity.
Qed.

Lemma ReadSetting_log (fs : filesys) (key : cstr) (st : state) :
  fs_log (snd (ReadSetting fs key st))
  = fs_log st ++ [Fopen (PROC_PATH ++ KeyToPath key) (lit "r")].
Proof.
  unfold ReadSetting. fold (KeyToPath key).
  destruct (fopen_r fs (PROC_PATH ++ KeyToPath key)) as [errno|fp];
    cbn [snd].
  - destruct (errno =? ENOENT); [|destruct (errno =? EACCES)];
      destruct (is_empty key); reflexivity.
  - match goal with
    | |- context [ReadSetting_while ?f ?p ?o ?s] =>
        destruct (ReadSetting_while_keeps f p o s) as (-> & _)
    end.
    destruct (is_empty key); reflexivity.
Qed.

Lemma ReadSetting_flags (fs : filesys) (key : cstr) (st : state) :
  PrintName (snd (ReadSetting fs key st)) = PrintName st /\
  PrintNewline (snd (ReadSetting fs key st)) = PrintNewline st.
Proof.
  unfold ReadSetting.
  destruct (fopen_r fs _) as [errno|fp]; cbn [snd].
  - destruct (errno =? ENOENT); [|destruct (errno =? EACCES)];
      destruct (is_empty key); split; reflexivity.
  - match goal with
    | |- context [ReadSetting_while ?f ?p ?o ?s] =>
        destruct (ReadSetting_while_keeps f p o s) as (_ & _ & -> & ->)
    end.
    destruct (is_empty key); split; reflexivity.
Qed.

(** X7.  Whatever the key and the file system, [ReadSetting] makes exactly
    one call to the file system, the open for reading of the file of the
    key, and never writes; its code is -1 when that open fails and 0
    otherwise; the display flags are unchanged; and when it returns 0 the
    only message it can have sent to stderr is the one for an empty key. *)
Theorem read_opens_once (fs : filesys) (key : cstr) (st : state) :
  fs_log (snd (ReadSetting fs key st))
    = fs_log st ++ [Fopen (PROC_PATH ++ KeyToPath key) (lit "r")] /\
  fst (ReadSetting fs key st) = read_code fs key /\
  PrintName (snd (ReadSetting fs key st)) = PrintName st /\
  PrintNewline (snd (ReadSetting fs key st)) = PrintNewline st /\
  (fst (ReadSetting fs key st) = 0 ->
   stderr (snd (ReadSetting fs key st))
   = stderr st ++ (if is_empty key then [ERR_INVALID_KEY key] else [])).
Proof.
  split; [apply ReadSetting_log|]. split; [apply ReadSetting_code|].
  split; [apply ReadSetting_flags|]. split; [apply ReadSetting_flags|].
  unfold ReadSetting.
  destruct (fopen_r fs _) as [errno|fp]; cbn [fst snd]; [discriminate|].
  intros _.
  match goal with
  | |- context [ReadSetting_while ?f ?p ?o ?s] =>
      destruct (ReadSetting_while_keeps f p o s) as (_ & -> & _)
  end.
  destruct (is_empty key); cbn; [reflexivity | now rewrite app_nil_r].
Qed.

Lemma read_opens_once_witness :
  fst (ReadSetting sample_fs (lit "version") initial_state) = 0 /\
  stderr (snd (ReadSetting sample_fs (lit "version") initial_state)) = [].
Proof.
  destruct (read_opens_once sample_fs (lit "version") initial_state)
    as (_ & _ & _ & _ & H).
  split; [reflexivity | exact (H eq_refl)].
Defined.

(** With the name prefix on, the loop prints each physical line behind the
    name, as long as each fits the buffer and the file holds no NUL. *)
Lemma ReadSetting_while_named (fuel : nat) :
  forall (fp outname : cstr) (st : state),
    PrintName st = true ->
    lines_within 1023 fp ->
    ~ In zero fp ->
    (length fp <= fuel)%nat ->
    ReadSetting_while fuel fp outname st
    = print st
        (concat (map (fun l => outname ++ lit " = " ++ l) (phys_lines fp))).
Proof.
  induction fuel as [|fuel IH]; intros fp outname st Hn Hfit Hnul Hlen.
  - destruct fp; [|simpl in Hlen; lia]. simpl. now rewrite print_nil.
  - destruct fp as [|c fp]; [simpl; now rewrite print_nil|].
    destruct (phys_lines (c :: fp)) as [|l ls] eqn:El.
    { apply phys_lines_nil in El. discriminate. }
    unfold lines_within in Hfit. rewrite El in Hfit.
    inversion Hfit as [|? ? Hl Hls]; subst.
    destruct (fgets_chars_phys _ 1023 _ _ El Hl) as (r & Hf & Hr & Hlt).
    pose proof (fgets_chars_split _ _ _ _ Hf) as Hs.
    rewrite Hs in Hnul. apply no_nul_app in Hnul as [Hnul1 Hnul2].
    cbn [ReadSetting_while fgets]. change (1024 - 1)%nat with 1023%nat.
    rewrite Hf. cbv zeta. rewrite Hn, (c_str_id l Hnul1). rewrite IH.
    + rewrite print_print, Hr. cbn [map concat].
      now rewrite <- !app_assoc.
    + exact Hn.
    + unfold lines_within. now rewrite Hr.
    + exact Hnul2.
    + simpl in Hlen, Hlt. lia.
Qed.

(** X8.  With the name prefix on, [ReadSetting] prints every physical line
    of a readable file behind the displayed key and [" = "], one record per
    line and nothing added after the last one, provided each line fits the
    read buffer of 1023 characters and the file holds no NUL byte. *)
Theorem read_with_name (fs : filesys) (key content : cstr) (st : state) :
  fopen_r fs (PROC_PATH ++ KeyToPath key) = Done content ->
  PrintName st = true ->
  lines_within 1023 content ->
  ~ In zero content ->
  stdout (snd (ReadSetting fs key st))
  = stdout st ++
    concat (map (fun l => PathToKey key ++ lit " = " ++ l)
              (phys_lines content)).
Proof.
  intros Hopen Hn Hfit Hnul. unfold ReadSetting.
  fold (KeyToPath key) (PathToKey key). rewrite Hopen. cbn [snd].
  rewrite ReadSetting_while_named; [| |assumption|assumption|lia].
  - destruct (is_empty key); reflexivity.
  - destruct (is_empty key); exact Hn.
Qed.

Lemma read_with_name_witness :
  stdout (snd (ReadSetting sample_fs (lit "net.a") initial_state))
  = lit "net.a = 1" ++ [NL] ++ lit "net.a = 2" ++ [NL].
Proof.
  apply (read_with_name sample_fs (lit "net.a")
           (lit "1" ++ [NL] ++ lit "2" ++ [NL]) initial_state).
  - reflexivity.
  - reflexivity.
  - unfold lines_within. simpl. repeat constructor; simpl; lia.
  - simpl. intros H.
    repeat (destruct H as [H|H]; [discriminate H|]). exact H.
Defined.

(** ** Stripping a line *)

Lemma strip_trailing_spec (t : nat) :
  forall buf : cstr,
    t = (length buf - 1)%nat ->
    exists trail,
      buf = strip_trailing buf t ++ trail /\ spaces trail /\
      ((length (strip_trailing buf t) <= 1)%nat \/
       is_space (last (strip_trailing buf t) zero) = false) /\
      (buf <> [] -> strip_trailing buf t <> []).
Proof.
  induction t as [|t IH]; intros buf Ht.
  - exists []. cbn [strip_trailing]. rewrite app_nil_r.
    repeat split; [constructor | left; lia | auto].
  - assert (Hne : buf <> []) by (intros ->; simpl in Ht; lia).
    destruct (exists_last Hne) as (b0 & x & ->).
    assert (Hb0 : length b0 = S t)
      by (rewrite length_app in Ht; simpl in Ht; lia).
    cbn [strip_trailing]. rewrite Ht, load_last.
    destruct (is_space x) eqn:Ex.
    + rewrite <- Ht, <- Hb0, firstn_length_app.
      destruct (IH b0) as (trail & Hs & Hsp & Hlast & Hnil); [lia|].
      replace (length b0 - 1)%nat with t in * by lia.
      exists (trail ++ [x]). repeat split.
      * rewrite app_assoc. now rewrite <- Hs.
      * apply Forall_app. split; [exact Hsp | now constructor].
      * replace t with (length b0 - 1)%nat by lia.
        replace (length b0 - 1)%nat with t by lia. exact Hlast.
      * intros _. apply Hnil. intros ->. discriminate.
    + exists []. rewrite app_nil_r. repeat split.
      * constructor.
      * right. now rewrite last_last.
      * auto.
Qed.

Lemma skip_blanks_spec (buf : cstr) :
  exists lead,
    buf = lead ++ skip_blanks buf /\ blanks lead /\
    is_blank (hd zero (skip_blanks buf)) = false.
Proof.
  induction buf as [|c buf (lead & Hs & Hl & Hhd)].
  - exists []. repeat split. constructor.
  - cbn [skip_blanks]. destruct (is_blank c) eqn:Ec.
    + exists (c :: lead). repeat split.
      * cbn [app]. now rewrite <- Hs.
      * now constructor.
      * exact Hhd.
    + exists []. repeat split; [constructor | exact Ec].
Qed.

(** What [StripLeadingAndTrailingSpaces] leaves in the buffer. *)
Lemma strip_buffer (oneline : cstr) :
  exists trail,
    oneline = fst (StripLeadingAndTrailingSpaces oneline) ++ trail /\
    spaces trail /\
    ((length (fst (StripLeadingAndTrailingSpaces oneline)) <= 1)%nat \/
     is_space (last (fst (StripLeadingAndTrailingSpaces oneline)) zero)
     = false).
Proof.
  destruct oneline as [|c rest].
  { exists []. cbn. repeat split; [constructor | left; lia]. }
  unfold StripLeadingAndTrailingSpaces. cbn [fst].
  destruct (strip_trailing_spec (length (c :: rest) - 1) (c :: rest) eq_refl)
    as (trail & Hs & Hsp & Hlast & _).
  now exists trail.
Qed.

(** What it returns: the buffer after its leading spaces and tabs. *)
Lemma strip_pointer (oneline : cstr) :
  exists lead,
    fst (StripLeadingAndTrailingSpaces oneline)
      = lead ++ snd (StripLeadingAndTrailingSpaces oneline) /\
    blanks lead /\
    is_blank (hd zero (snd (StripLeadingAndTrailingSpaces oneline))) = false.
Proof.
  destruct oneline as [|c rest].
  { exists []. cbn. repeat split. constructor. }
  unfold StripLeadingAndTrailingSpaces. cbn [fst snd].
  apply skip_blanks_spec.
Qed.

Lemma strip_result_end (oneline : cstr) :
  (2 <= length (snd (StripLeadingAndTrailingSpaces oneline)))%nat ->
  is_space (last (snd (StripLeadingAndTrailingSpaces oneline)) zero) = false.
Proof.
  intros Hlen.
  destruct (strip_buffer oneline) as (trail & _ & _ & Hlast).
  destruct (strip_pointer oneline) as (lead & Hb & _ & _).
  assert (Hne : snd (StripLeadingAndTrailingSpaces oneline) <> [])
    by (intros H; rewrite H in Hlen; simpl in Hlen; lia).
  destruct Hlast as [Hshort | Hlast].
  - rewrite Hb, length_app in Hshort. lia.
  - rewrite Hb in Hlast. now rewrite last_app in Hlast.
Qed.

(** X9.  [StripLeadingAndTrailingSpaces] only removes white space: the line
    is the string left in the buffer followed by spaces, tabs, newlines and
    carriage returns, and that string is spaces and tabs followed by the
    string returned.  The string returned never starts with a space or a
    tab, and when it has two characters or more it does not end in white
    space (the first character of the line is never cut, so a single white
    character can remain). *)
Theorem strip_removes_only_white_space (oneline : cstr) :
  exists lead trail,
    oneline = fst (StripLeadingAndTrailingSpaces oneline) ++ trail /\
    fst (StripLeadingAndTrailingSpaces oneline)
      = lead ++ snd (StripLeadingAndTrailingSpaces oneline) /\
    blanks lead /\ spaces trail /\
    is_blank (hd zero (snd (StripLeadingAndTrailingSpaces oneline))) = false /\
    ((2 <= length (snd (StripLeadingAndTrailingSpaces oneline)))%nat ->
     is_space (last (snd (StripLeadingAndTrailingSpaces oneline)) zero)
     = false).
Proof.
  destruct (strip_buffer oneline) as (trail & Hs & Hsp & _).
  destruct (strip_pointer oneline) as (lead & Hb & Hl & Hhd).
  exists lead, trail.
  split; [exact Hs|]. split; [exact Hb|]. split; [exact Hl|].
  split; [exact Hsp|]. split; [exact Hhd|].
  apply strip_result_end.
Qed.

Lemma strip_removes_only_white_space_witness :
  snd (StripLeadingAndTrailingSpaces (lit "  a b  " ++ [NL])) = lit "a b" /\
  is_space (last (snd (StripLeadingAndTrailingSpaces (lit "  a b  " ++ [NL])))
              zero) = false.
Proof.
  destruct (strip_removes_only_white_space (lit "  a b  " ++ [NL]))
    as (lead & trail & _ & _ & _ & _ & _ & H).
  split; [reflexivity|]. apply H. simpl. lia.
Defined.

(** X10.  Stripping is idempotent: on the string it returns,
    [StripLeadingAndTrailingSpaces] cuts nothing and returns it again. *)
Theorem strip_idempotent (oneline : cstr) :
  StripLeadingAndTrailingSpaces (snd (StripLeadingAndTrailingSpaces oneline))
  = (snd (StripLeadingAndTrailingSpaces oneline),
     snd (StripLeadingAndTrailingSpaces oneline)).
Proof.
  destruct (strip_pointer oneline) as (lead & _ & _ & Hhd).
  pose proof (strip_result_end oneline) as Hlast.
  set (t := snd (StripLeadingAndTrailingSpaces oneline)) in *.
  destruct t as [|c [|c' t']] eqn:Et.
  - reflexivity.
  - cbn in Hhd. cbn. now rewrite Hhd.
  - rewrite <- Et in *.
    assert (Htrim : trimmed t).
    { split; [rewrite Et; discriminate|]. split; [exact Hhd|].
      apply Hlast. rewrite Et. simpl. lia. }
    pose proof (strip_line [] t [] (Forall_nil _) Htrim (Forall_nil _)) as H.
    cbn [app] in H. now rewrite app_nil_r in H.
Qed.

Lemma strip_trailing_spaces (t : nat) :
  forall buf : cstr,
    spaces buf -> t = (length buf - 1)%nat ->
    strip_trailing buf t = firstn 1 buf.
Proof.
  induction t as [|t IH]; intros buf Hsp Ht.
  - cbn [strip_trailing]. symmetry. apply firstn_all2. lia.
  - assert (Hne : buf <> []) by (intros ->; simpl in Ht; lia).
    destruct (exists_last Hne) as (b0 & x & ->).
    assert (Hb0 : length b0 = S t)
      by (rewrite length_app in Ht; simpl in Ht; lia).
    apply Forall_app in Hsp as [Hsp Hx]. inversion Hx as [|? ? Hx' _]; subst.
    cbn [strip_trailing]. rewrite Ht, load_last, Hx'.
    rewrite <- Ht, <- Hb0, firstn_length_app.
    rewrite IH; [|assumption|lia].
    destruct b0; [discriminate | reflexivity].
Qed.

Lemma skip_blanks_length (buf : cstr) :
  (length (skip_blanks buf) <= length buf)%nat.
Proof.
  induction buf as [|c buf IH]; simpl; [lia|].
  destruct (is_blank c); simpl; lia.
Qed.

Lemma c_str_app (a b : cstr) : ~ In zero a -> c_str (a ++ b) = a ++ c_str b.
Proof.
  induction a as [|c a IH]; [reflexivity|]. intros H. cbn [app c_str].
  destruct (Ascii.eqb c zero) eqn:E.
  - apply Ascii.eqb_eq in E. subst c. exfalso. apply H. now left.
  - rewrite IH; [reflexivity|]. intros Hin. apply H. now right.
Qed.

Lemma blanks_then_char (a a' : cstr) (x c : ascii) (r r' : cstr) :
  blanks a -> blanks a' -> is_blank x = false -> is_blank c = false ->
  a ++ x :: r = a' ++ c :: r' -> x = c /\ r = r'.
Proof.
  intros Ha. revert a'.
  induction Ha as [|y a Hy _ IH]; intros a' Ha' Hx Hc He.
  - destruct a' as [|y' a']; cbn [app] in He.
    + now injection He.
    + injection He as -> _. inversion Ha'; subst. congruence.
  - destruct a' as [|y' a']; cbn [app] in He.
    + injection He as -> _. congruence.
    + injection He as _ He. inversion Ha'; subst. now apply IH in He.
Qed.

(** Stripping keeps the first character that is not white space. *)
Lemma strip_keeps_head (lead : cstr) (c : ascii) (w : cstr) :
  blanks lead -> is_space c = false ->
  exists w', snd (StripLeadingAndTrailingSpaces (lead ++ c :: w)) = c :: w'.
Proof.
  intros Hl Hc.
  assert (Hb : is_blank c = false).
  { destruct (is_blank c) eqn:E; [|reflexivity].
    apply blank_is_space in E. congruence. }
  destruct (strip_buffer (lead ++ c :: w)) as (trail & Hs & Hsp & _).
  destruct (strip_pointer (lead ++ c :: w)) as (lead' & Hp & Hl' & Hhd).
  rewrite Hp in Hs.
  destruct (snd (StripLeadingAndTrailingSpaces (lead ++ c :: w)))
    as [|x t] eqn:Et.
  - exfalso. rewrite app_nil_r in Hs.
    assert (Hin : In c (lead' ++ trail))
      by (rewrite <- Hs; apply in_or_app; right; now left).
    apply in_app_or in Hin as [Hin|Hin].
    + unfold blanks in Hl'. rewrite Forall_forall in Hl'.
      specialize (Hl' _ Hin). congruence.
    + unfold spaces in Hsp. rewrite Forall_forall in Hsp.
      specialize (Hsp _ Hin). congruence.
  - cbn [hd] in Hhd. rewrite <- app_assoc in Hs. cbn [app] in Hs.
    symmetry in Hs.
    destruct (blanks_then_char _ _ _ _ _ _ Hl' Hl Hhd Hb Hs) as [-> _].
    now exists t.
Qed.

(** X11.  A line made of white space only, and a line whose first character
    after the leading spaces and tabs is [#] or [;], have no effect at all:
    no write, no warning, no output. *)
Theorem blank_and_comment_lines_ignored (fs : filesys) (filename : cstr)
    (n : Z) (st : state) :
  (forall line : cstr,
     spaces line -> Preload_line fs filename n line st = st) /\
  (forall lead body trail : cstr,
     blanks lead -> spaces trail -> trimmed body ->
     is_comment body = true ->
     Preload_line fs filename n (lead ++ body ++ trail) st = st).
Proof.
  split.
  - intros line Hsp. unfold Preload_line. cbv zeta.
    rewrite (c_str_id line) by now apply spaces_no_nul.
    assert (Hshort : Nat.ltb
              (length (snd (StripLeadingAndTrailingSpaces line))) 2 = true).
    { apply Nat.ltb_lt. destruct line as [|c rest]; [simpl; lia|].
      unfold StripLeadingAndTrailingSpaces. cbn [snd].
      rewrite strip_trailing_spaces by (assumption || reflexivity).
      change (firstn 1 (c :: rest)) with [c].
      pose proof (skip_blanks_length [c]) as H.
      change (length [c]) with 1%nat in H. lia. }
    now rewrite Hshort.
  - intros lead body trail Hl Ht Hb Hc. unfold Preload_line. cbv zeta.
    destruct body as [|c b']; [discriminate Hc|].
    unfold is_comment in Hc. change (load (c :: b') 0) with c in Hc.
    assert (Hsp : is_space c = false).
    { apply orb_true_iff in Hc as [H|H]; apply Ascii.eqb_eq in H;
        now subst c. }
    assert (Hcz : c <> zero).
    { apply orb_true_iff in Hc as [H|H]; apply Ascii.eqb_eq in H;
        now subst c. }
    assert (Hnul : ~ In zero (lead ++ [c])).
    { intros Hin. apply in_app_or in Hin as [Hin|[Hin|[]]].
      - now apply (spaces_no_nul lead (blanks_spaces _ Hl)).
      - now apply Hcz. }
    replace (lead ++ (c :: b') ++ trail) with ((lead ++ [c]) ++ b' ++ trail)
      by (now rewrite <- app_assoc).
    rewrite c_str_app by exact Hnul. rewrite <- app_assoc. cbn [app].
    destruct (strip_keeps_head lead c (c_str (b' ++ trail)) Hl Hsp)
      as (w' & ->).
    change (load (c :: w') 0) with c. rewrite Hc.
    destruct (Nat.ltb (length (c :: w')) 2); reflexivity.
Qed.

Lemma blank_and_comment_lines_ignored_witness :
  Preload_line sample_fs DEFAULT_PRELOAD 1 (lit "  " ++ [TAB; CR; NL])
    initial_state = initial_state /\
  Preload_line sample_fs DEFAULT_PRELOAD 2 (lit "  ; a = 1 " ++ [NL])
    initial_state = initial_state.
Proof.
  destruct (blank_and_comment_lines_ignored sample_fs DEFAULT_PRELOAD 1
              initial_state) as [Hblank _].
  destruct (blank_and_comment_lines_ignored sample_fs DEFAULT_PRELOAD 2
              initial_state) as [_ Hcomment].
  split.
  - apply Hblank. repeat constructor.
  - apply (Hcomment (lit "  ") (lit "; a = 1") (lit " " ++ [NL])).
    + repeat constructor.
    + repeat constructor.
    + split; [discriminate | split; reflexivity].
    + reflexivity.
Defined.

Lemma skip_delims_head (s delim : cstr) (c : ascii) (s' : cstr) :
  skip_delims s delim = c :: s' -> in_set c delim = false.
Proof.
  induction s as [|d s IH]; simpl; [discriminate|].
  destruct (in_set d delim) eqn:Ed; [exact IH|].
  intros [= <- <-]. exact Ed.
Qed.

Lemma take_token_no_delim (s delim : cstr) :
  Forall (fun c => in_set c delim = false) (fst (take_token s delim)).
Proof.
  induction s as [|c s IH]; simpl; [constructor|].
  destruct (in_set c delim) eqn:Ec; [constructor|].
  destruct (take_token s delim) as [tok rest]. simpl in *.
  now constructor.
Qed.

(** A token returned by [strtok] is not empty and has no delimiter. *)
Lemma strtok_token (s delim tok rest : cstr) :
  strtok s delim = (Some tok, rest) ->
  tok <> [] /\ Forall (fun c => in_set c delim = false) tok.
Proof.
  unfold strtok. destruct (skip_delims s delim) as [|c s'] eqn:E;
    [discriminate|].
  pose proof (skip_delims_head _ _ _ _ E) as Hc.
  pose proof (take_token_no_delim (c :: s') delim) as Hall.
  simpl in *. rewrite Hc in *.
  destruct (take_token s' delim) as [tok' rest']. simpl in *.
  intros [= <- <-]. split; [discriminate | exact Hall].
Qed.

Lemma strip_fst_prefix (name : cstr) :
  name <> [] ->
  exists trail,
    name = fst (StripLeadingAndTrailingSpaces name) ++ trail /\
    fst (StripLeadingAndTrailingSpaces name) <> [].
Proof.
  intros Hne. destruct name as [|c rest]; [congruence|].
  unfold StripLeadingAndTrailingSpaces. cbn [fst].
  destruct (strip_trailing_spec (length (c :: rest) - 1) (c :: rest) eq_refl)
    as (trail & Hs & _ & _ & Hnil).
  exists trail. split; [exact Hs | now apply Hnil].
Qed.

(** X12.  Whatever the line, its handling ends in one of three ways:
    nothing happens; the warning for this line goes to stderr and nothing
    else happens; or [WriteSetting] is called once, on a string made of a
    non-empty name without [=], an [=] and a value. *)
Theorem preload_line_outcomes (fs : filesys) (filename : cstr) (n : Z)
    (oneline : cstr) (st : state) :
  Preload_line fs filename n oneline st = st \/
  Preload_line fs filename n oneline st
    = eprint st (WARN_BAD_LINE filename n) \/
  exists name value : cstr,
    name <> [] /\ ~ In "="%char name /\
    Preload_line fs filename n oneline st
    = snd (WriteSetting fs (Some (name ++ lit "=" ++ value)) st).
Proof.
  unfold Preload_line. cbv zeta.
  set (t := snd (StripLeadingAndTrailingSpaces (c_str oneline))).
  destruct (Nat.ltb (length t) 2); [now left|].
  destruct (Ascii.eqb (load t 0) "#" || Ascii.eqb (load t 0) ";");
    [now left|].
  destruct (strtok t (lit "=")) as [[name|] saved] eqn:Etok;
    [|right; now left].
  destruct (strtok_token _ _ _ _ Etok) as [Hne Hall].
  rewrite is_empty_false by assumption.
  destruct (strtok saved [NL; CR]) as [[value|] saved'];
    [|right; now left].
  destruct (is_empty value); [right; now left|].
  right. right.
  destruct (strip_fst_prefix name Hne) as (trail & Hs & Hnil).
  exists (fst (StripLeadingAndTrailingSpaces name)), (skip_blanks value).
  split; [exact Hnil|]. split; [|reflexivity].
  intros Hin.
  assert (Hin' : In "="%char name)
    by (rewrite Hs; apply in_or_app; now left).
  rewrite Forall_forall in Hall. specialize (Hall _ Hin').
  discriminate.
Qed.

(** ** The enumerator *)

Lemma read_code_range (fs : filesys) (key : cstr) :
  read_code fs key = 0 \/ read_code fs key = -1.
Proof. unfold read_code. destruct (fopen_r fs _); auto. Qed.

Lemma leaf_codes_cons (fs : filesys) (path d_name : cstr)
    (entries : list cstr) (rc : Z) :
  leaf_codes fs path (d_name :: entries) rc
  = leaf_codes fs path entries
      match stat fs (path ++ d_name) with
      | Done false =>
          Z.lor rc (read_code fs (skipn (length PROC_PATH) (path ++ d_name)))
      | _ => rc
      end.
Proof. reflexivity. Qed.

Lemma leaf_codes_range (fs : filesys) (path : cstr) (entries : list cstr) :
  forall rc : Z,
    rc = 0 \/ rc = -1 ->
    leaf_codes fs path entries rc = 0 \/ leaf_codes fs path entries rc = -1.
Proof.
  induction entries as [|d_name entries IH]; intros rc Hrc; [exact Hrc|].
  rewrite leaf_codes_cons. apply IH.
  destruct (stat fs (path ++ d_name)) as [e|[|]]; try exact Hrc.
  destruct (read_code_range fs (skipn (length PROC_PATH) (path ++ d_name)))
    as [-> | ->], Hrc as [-> | ->]; auto.
Qed.

Lemma DisplayAll_while_status
    (rec : cstr -> state -> option (Z * state)) (fs : filesys) (path : cstr)
    (entries : list cstr) :
  forall (rc : Z) (st : state) (rc' : Z) (st' : state),
    DisplayAll_while rec fs path entries rc st = Some (rc', st') ->
    rc' = leaf_codes fs path entries rc.
Proof.
  induction entries as [|d_name entries IH]; intros rc st rc' st'.
  - intros [= <- <-]. reflexivity.
  - rewrite leaf_codes_cons. cbn [DisplayAll_while].
    destruct (stat fs (path ++ d_name)) as [e|[|]].
    + apply IH.
    + destruct (rec _ _) as [[c1 s1]|]; [apply IH | discriminate].
    + match goal with
      | |- context [ReadSetting fs ?k ?s] =>
          pose proof (ReadSetting_code fs k s) as Hc;
          destruct (ReadSetting fs k s) as [rc1 st1]
      end.
      cbn [fst] in Hc. subst rc1. apply IH.
Qed.

(** X13.  The status of [DisplayAll] is -1 when the directory cannot be
    opened; otherwise it is the OR of the codes of reading the entries after
    the first two that [stat] finds not to be directories, and nothing that
    happens inside a subdirectory, nor a failing [stat], changes it.  It is
    always 0 or -1. *)
Theorem enumeration_status (fuel : nat) (fs : filesys) (ShowTableUtil : bool)
    (path : cstr) (st : state) (rc : Z) (st' : state) :
  DisplayAll fuel fs ShowTableUtil path st = Some (rc, st') ->
  rc = match opendir fs path with
       | None => -1
       | Some names => leaf_codes fs path (skipn 2 names) 0
       end /\
  (rc = 0 \/ rc = -1).
Proof.
  destruct fuel as [|fuel]; [discriminate|]. cbn [DisplayAll].
  destruct (opendir fs path) as [names|].
  - intros H. apply DisplayAll_while_status in H. subst rc.
    split; [reflexivity|]. apply leaf_codes_range. now left.
  - intros [= <- <-]. split; [reflexivity | now right].
Qed.

Lemma enumeration_status_witness :
  exists st',
    DisplayAll 2 sample_fs false PROC_PATH initial_state = Some (0, st') /\
    leaf_codes sample_fs PROC_PATH [lit "net"; lit "version"] 0 = 0.
Proof.
  destruct (DisplayAll 2 sample_fs false PROC_PATH initial_state)
    as [[rc st']|] eqn:E; [|discriminate E].
  destruct (enumeration_status 2 sample_fs false PROC_PATH initial_state
              rc st' E) as [Hrc _].
  exists st'. split; [|reflexivity].
  rewrite Hrc. reflexivity.
Defined.

Lemma DisplayAll_while_reads_only
    (rec : cstr -> state -> option (Z * state)) (fs : filesys) (path : cstr)
    (entries : list cstr) :
  (forall p st r st',
     rec p st = Some (r, st') ->
     exists evs,
       fs_log st' = fs_log st ++ evs /\ forallb reads_only evs = true) ->
  forall (rc : Z) (st : state) (rc' : Z) (st' : state),
    DisplayAll_while rec fs path entries rc st = Some (rc', st') ->
    exists evs,
      fs_log st' = fs_log st ++ evs /\ forallb reads_only evs = true.
Proof.
  intros Hrec.
  induction entries as [|d_name entries IH]; intros rc st rc' st'.
  - intros [= <- <-]. exists []. now rewrite app_nil_r.
  - cbn [DisplayAll_while].
    destruct (stat fs (path ++ d_name)) as [e|[|]].
    + intros H. apply IH in H as (evs & Hlog & Hro).
      exists (Stat (path ++ d_name) :: evs). split; [|exact Hro].
      rewrite Hlog. cbn. now rewrite <- app_assoc.
    + destruct (rec _ _) as [[c1 s1]|] eqn:Er; [|discriminate].
      apply Hrec in Er as (evs1 & Hlog1 & Hro1).
      intros H. apply IH in H as (evs & Hlog & Hro).
      exists (Stat (path ++ d_name) :: evs1 ++ evs). split.
      * rewrite Hlog, Hlog1. cbn. now rewrite <- !app_assoc.
      * cbn. now rewrite forallb_app, Hro1, Hro.
    + match goal with
      | |- context [ReadSetting fs ?k ?s] =>
          pose proof (ReadSetting_log fs k s) as Hl;
          destruct (ReadSetting fs k s) as [rc1 st1]
      end.
      cbn [snd] in Hl.
      intros H. apply IH in H as (evs & Hlog & Hro).
      eexists (Stat (path ++ d_name) :: Fopen _ (lit "r") :: evs). split.
      * rewrite Hlog, Hl. cbn. rewrite <- !app_assoc. reflexivity.
      * exact Hro.
Qed.

(** X14.  Enumerating never writes: every call [DisplayAll] makes to the
    file system, at any depth, is an [opendir], a [stat] or an open for
    reading. *)
Theorem enumeration_reads_only (fuel : nat) (fs : filesys)
    (ShowTableUtil : bool) :
  forall (path : cstr) (st : state) (rc : Z) (st' : state),
    DisplayAll fuel fs ShowTableUtil path st = Some (rc, st') ->
    exists evs,
      fs_log st' = fs_log st ++ evs /\ forallb reads_only evs = true.
Proof.
  induction fuel as [|fuel IH]; intros path st rc st'; [discriminate|].
  cbn [DisplayAll]. destruct (opendir fs path) as [names|].
  - intros H.
    apply (DisplayAll_while_reads_only _ _ _ _ IH) in H
      as (evs & Hlog & Hro).
    exists (Opendir path :: evs). split; [|exact Hro].
    rewrite Hlog. cbn. now rewrite <- app_assoc.
  - intros [= <- <-]. exists [Opendir path]. split; reflexivity.
Qed.

Lemma enumeration_reads_only_witness :
  exists st' evs,
    DisplayAll 2 sample_fs false PROC_PATH initial_state = Some (0, st') /\
    fs_log st' = evs /\ forallb reads_only evs = true.
Proof.
  destruct (DisplayAll 2 sample_fs false PROC_PATH initial_state)
    as [[rc st']|] eqn:E; [|discriminate E].
  destruct (enumeration_reads_only 2 sample_fs false PROC_PATH initial_state
              rc st' E) as (evs & Hlog & Hro).
  assert (Hrc : rc = 0) by (vm_compute in E; congruence).
  subst rc. exists st', evs. repeat split; assumption.
Defined.

Lemma DisplayAll_while_returns
    (rec : cstr -> state -> option (Z * state)) (fs : filesys) (path : cstr)
    (entries : list cstr) :
  Forall
    (fun d_name =>
       stat fs (path ++ d_name) = Done true ->
       forall st, exists r, rec ((path ++ d_name) ++ lit "/") st = Some r)
    entries ->
  forall (rc : Z) (st : state),
    exists r, DisplayAll_while rec fs path entries rc st = Some r.
Proof.
  induction 1 as [|d_name entries Hd _ IH]; intros rc st.
  - now eexists.
  - cbn [DisplayAll_while].
    destruct (stat fs (path ++ d_name)) as [e|[|]] eqn:Es.
    + apply IH.
    + destruct (Hd eq_refl (record st (Stat (path ++ d_name))))
        as [[c1 s1] ->].
      apply IH.
    + destruct (ReadSetting fs _ _) as [rc1 st1]. apply IH.
Qed.

(** X15.  [DisplayAll] returns on every tree of bounded depth: when the
    walk from [path] nests at most [d] calls, the call returns (fuel [d] or
    more gives a result), whatever reads and [stat] calls fail on the
    way. *)
Theorem enumeration_returns (d : nat) (fs : filesys) (ShowTableUtil : bool) :
  forall (fuel : nat) (path : cstr) (st : state),
    shallow d fs path -> (d <= fuel)%nat ->
    exists rc st', DisplayAll fuel fs ShowTableUtil path st = Some (rc, st').
Proof.
  induction d as [|d IH]; intros fuel path st Hsh Hle; [contradiction|].
  destruct fuel as [|fuel]; [lia|].
  cbn [DisplayAll]. cbn [shallow] in Hsh.
  destruct (opendir fs path) as [names|]; [|now do 2 eexists].
  assert (H : exists r,
             DisplayAll_while (DisplayAll fuel fs ShowTableUtil) fs path
               (skipn 2 names) 0 (record st (Opendir path)) = Some r).
  { apply DisplayAll_while_returns.
    eapply Forall_impl; [|exact Hsh].
    intros d_name Hd Hdir st1.
    destruct (IH fuel _ st1 (Hd Hdir)) as (rc1 & st2 & ->); [lia|].
    now eexists. }
  destruct H as [[rc st'] ->]. now do 2 eexists.
Qed.

Lemma enumeration_returns_witness :
  shallow 2 sample_fs PROC_PATH /\
  exists rc st',
    DisplayAll 5 sample_fs false PROC_PATH initial_state = Some (rc, st').
Proof.
  assert (H : shallow 2 sample_fs PROC_PATH).
  { cbn. constructor.
    - intros _. constructor; [discriminate|].
      constructor; [discriminate | constructor].
    - constructor; [discriminate | constructor]. }
  split; [exact H|].
  apply (enumeration_returns 2 sample_fs false 5 PROC_PATH initial_state H).
  lia.
Defined.

Lemma skipn_PROC_PATH (rel : cstr) :
  skipn (length PROC_PATH) (PROC_PATH ++ rel) = rel.
Proof. reflexivity. Qed.

Lemma DisplayAll_while_app
    (rec : cstr -> state -> option (Z * state)) (fs : filesys) (path : cstr)
    (pre post : list cstr) :
  forall (rc : Z) (st : state),
    DisplayAll_while rec fs path (pre ++ post) rc st
    = match DisplayAll_while rec fs path pre rc st with
      | None => None
      | Some (rc1, st1) => DisplayAll_while rec fs path post rc1 st1
      end.
Proof.
  induction pre as [|d_name pre IH]; intros rc st; [reflexivity|].
  cbn [app DisplayAll_while].
  destruct (stat fs (path ++ d_name)) as [e|[|]].
  - apply IH.
  - destruct (rec _ _) as [[c1 s1]|]; [apply IH | reflexivity].
  - destruct (ReadSetting fs _ _) as [rc1 st1]. apply IH.
Qed.

(** The log only grows during a walk. *)
Lemma DisplayAll_log (fuel : nat) (fs : filesys) (ShowTableUtil : bool) :
  forall (path : cstr) (st : state) (rc : Z) (st' : state),
    DisplayAll fuel fs ShowTableUtil path st = Some (rc, st') ->
    exists evs,
      fs_log st' = fs_log st ++ evs /\ forallb reads_only evs = true.
Proof.
  induction fuel as [|fuel IH]; intros path st rc st'; [discriminate|].
  cbn [DisplayAll]. destruct (opendir fs path) as [names|].
  - intros H.
    apply (DisplayAll_while_reads_only _ _ _ _ IH) in H
      as (evs & Hlog & Hro).
    exists (Opendir path :: evs). split; [|exact Hro].
    rewrite Hlog. cbn. now rewrite <- app_assoc.
  - intros [= <- <-]. exists [Opendir path]. split; reflexivity.
Qed.

(** X16.  For an entry of a directory below [/proc/sys/] that comes after
    the first two and that [stat] finds not to be a directory, a walk by
    [DisplayAll] that returns has called [stat] on the entry and, right
    after it, opened a file for reading: the very file that was found when
    the first dot or slash of its path below [/proc/sys/] is a slash or
    there is none, and the file whose path below [/proc/sys/] has every
    dot and slash swapped when it is a dot (an entry of the root with a
    dot in its name). *)
Theorem enumerated_entry_opened (fuel : nat) (fs : filesys)
    (ShowTableUtil : bool) (dir : cstr) (names pre : list cstr)
    (d_name : cstr) (post : list cstr) (st : state) (rc : Z) (st' : state) :
  opendir fs (PROC_PATH ++ dir) = Some names ->
  skipn 2 names = pre ++ d_name :: post ->
  stat fs ((PROC_PATH ++ dir) ++ d_name) = Done false ->
  DisplayAll fuel fs ShowTableUtil (PROC_PATH ++ dir) st = Some (rc, st') ->
  exists before after,
    fs_log st'
    = fs_log st ++ before ++
      [Stat ((PROC_PATH ++ dir) ++ d_name);
       Fopen
         (PROC_PATH ++
          match first_delim (dir ++ d_name) with
          | None => dir ++ d_name
          | Some d =>
              if Ascii.eqb d "." then swap_all "." "/" (dir ++ d_name)
              else dir ++ d_name
          end)
         (lit "r")] ++ after.
Proof.
  intros Hopen Hnames Hstat.
  destruct fuel as [|fuel]; [discriminate|].
  cbn [DisplayAll]. rewrite Hopen, Hnames, DisplayAll_while_app.
  set (path := PROC_PATH ++ dir) in *.
  destruct (DisplayAll_while (DisplayAll fuel fs ShowTableUtil) fs path pre 0
              (record st (Opendir path))) as [[rc1 st1]|] eqn:Epre;
    [|discriminate].
  apply (DisplayAll_while_reads_only _ _ _ _
           (DisplayAll_log fuel fs ShowTableUtil)) in Epre
    as (evs1 & Hlog1 & _).
  cbn [DisplayAll_while]. rewrite Hstat.
  pose proof (ReadSetting_log fs (skipn (length PROC_PATH) (path ++ d_name))
                (record st1 (Stat (path ++ d_name)))) as Hread.
  destruct (ReadSetting fs (skipn (length PROC_PATH) (path ++ d_name))
              (record st1 (Stat (path ++ d_name)))) as [rc2 st2].
  cbn [snd] in Hread.
  intros Hpost.
  apply (DisplayAll_while_reads_only _ _ _ _
           (DisplayAll_log fuel fs ShowTableUtil)) in Hpost
    as (evs2 & Hlog2 & _).
  exists (Opendir path :: evs1), evs2.
  rewrite Hlog2, Hread. cbn [record fs_log]. rewrite Hlog1.
  cbn [record fs_log].
  subst path. rewrite <- (app_assoc PROC_PATH dir d_name) at 2.
  rewrite skipn_PROC_PATH, KeyToPath_cases.
  rewrite <- !app_assoc. reflexivity.
Qed.

Lemma enumerated_entry_opened_witness :
  exists rc st' before after,
    DisplayAll 1 sample_fs false (PROC_PATH ++ lit "net/") initial_state
    = Some (rc, st') /\
    fs_log st'
    = fs_log initial_state ++ before ++
      [Stat (lit "/proc/sys/net/b");
       Fopen (lit "/proc/sys/net/b") (lit "r")] ++ after.
Proof.
  destruct (DisplayAll 1 sample_fs false (PROC_PATH ++ lit "net/")
              initial_state) as [[rc st']|] eqn:E; [|discriminate E].
  destruct (enumerated_entry_opened 1 sample_fs false (lit "net/")
              [lit "."; lit ".."; lit "a"; lit "b"] [lit "a"] (lit "b") []
              initial_state rc st' eq_refl eq_refl eq_refl E)
    as (before & after & H).
  exists rc, st', before, after. split; [reflexivity | exact H].
Defined.

(** ** The dispatcher *)

Lemma main_for_read (fuel : nat) (fs : filesys) (me : cstr)
    (argv : list cstr) :
  forall (rc : Z) (st : state),
    main_for fuel fs me argv false false rc st
    = Some (rc,
            fold_left (fun st arg => snd (ReadSetting fs arg st))
              (before_empty argv) st).
Proof.
  induction argv as [|arg argv IH]; intros rc st; [reflexivity|].
  cbn [main_for andb before_empty].
  destruct (is_empty arg); [reflexivity|].
  cbn [fold_left]. destruct (ReadSetting fs arg st) as [rc1 st1].
  apply IH.
Qed.

Lemma main_for_write (fuel : nat) (fs : filesys) (me : cstr)
    (argv : list cstr) :
  forall (rc : Z) (st : state),
    main_for fuel fs me argv false true rc st
    = Some (fold_left (fun r arg => WriteSetting fs (Some arg) (snd r))
              (before_empty argv) (rc, st)).
Proof.
  induction argv as [|arg argv IH]; intros rc st; [reflexivity|].
  cbn [main_for andb before_empty].
  destruct (is_empty arg); [reflexivity|].
  cbn [fold_left snd].
  match goal with
  | |- context [WriteSetting fs ?a st] =>
      destruct (WriteSetting fs a st) as [rc1 st1]
  end.
  apply IH.
Qed.

(** X17.  When the first argument is a key (not empty, not starting with a
    dash), the run reads every argument up to the first empty one, in
    order, each on the state the one before left; arguments that start with
    a dash are read as keys like the others, and the status is 0. *)
Theorem read_mode_run (fuel : nat) (fs : filesys) (argv0 key : cstr)
    (rest : list cstr) :
  key <> [] -> load key 0 <> "-"%char ->
  main fuel fs argv0 (key :: rest)
  = Some (0,
          fold_left (fun st arg => snd (ReadSetting fs arg st))
            (key :: before_empty rest) initial_state).
Proof.
  intros Hne Hdash. unfold main. cbn [length Nat.add Nat.ltb Nat.leb].
  cbn [main_for]. rewrite is_empty_false by assumption.
  assert (Hd : Ascii.eqb (load key 0) "-" = false).
  { destruct (Ascii.eqb (load key 0) "-") eqn:E; [|reflexivity].
    apply Ascii.eqb_eq in E. contradiction. }
  rewrite Hd. cbn [andb fold_left].
  destruct (ReadSetting fs key initial_state) as [rc1 st1].
  apply main_for_read.
Qed.

Lemma read_mode_run_witness :
  main 0 sample_fs (lit "sysctl") [lit "version"; lit "-w"; lit "net.b"]
  = Some (0,
          fold_left (fun st arg => snd (ReadSetting sample_fs arg st))
            [lit "version"; lit "-w"; lit "net.b"] initial_state).
Proof.
  apply (read_mode_run 0 sample_fs (lit "sysctl") (lit "version")
           [lit "-w"; lit "net.b"]); discriminate.
Defined.

(** X18.  After [-w] every argument up to the first empty one is handed to
    [WriteSetting], in order, each on the state the one before left, also
    when it starts with a dash; the status of the run is the code of the
    last one handed over, and 0 when there is none. *)
Theorem write_mode_run (fuel : nat) (fs : filesys) (argv0 : cstr)
    (settings : list cstr) :
  main fuel fs argv0 (lit "-w" :: settings)
  = Some (fold_left (fun r arg => WriteSetting fs (Some arg) (snd r))
            (before_empty settings) (0, initial_state)).
Proof.
  unfold main. cbn [length Nat.add Nat.ltb Nat.leb].
  change (main_for fuel fs (basename argv0) (lit "-w" :: settings) true false
            0 initial_state)
    with (main_for fuel fs (basename argv0) settings false true 0
            initial_state).
  apply main_for_write.
Qed.

Lemma display_switch_cases (arg : cstr) :
  display_switch arg = true ->
  is_empty arg = false /\ Ascii.eqb (load arg 0) "-" = true /\
  (Ascii.eqb (load arg 1) "b" = true \/
   (Ascii.eqb (load arg 1) "b" = false /\
    Ascii.eqb (load arg 1) "n" = true)).
Proof.
  unfold display_switch. intros H. apply andb_true_iff in H as [H0 H1].
  split; [destruct arg; [discriminate H0 | reflexivity]|].
  split; [exact H0|].
  destruct (Ascii.eqb (load arg 1) "b"); [now left | right].
  split; [reflexivity | exact H1].
Qed.

Lemma main_for_preload (fuel : nat) (fs : filesys) (me : cstr)
    (pre : list cstr) (arg : cstr) (rest : list cstr) :
  forallb display_switch pre = true ->
  load arg 0 = "-"%char -> load arg 1 = "p"%char ->
  forall (wm : bool) (rc : Z) (st : state),
    exists name newline,
      main_for fuel fs me (pre ++ arg :: rest) true wm rc st
      = Some (0,
              Preload fs
                match rest with
                | file :: _ => if is_empty file then DEFAULT_PRELOAD else file
                | [] => DEFAULT_PRELOAD
                end
                (set_flags st name newline)).
Proof.
  intros Hpre H0 H1.
  induction pre as [|a pre IH]; intros wm rc st.
  - exists (PrintName st), (PrintNewline st).
    cbn [app main_for].
    assert (Hne : is_empty arg = false)
      by (destruct arg; [discriminate H0 | reflexivity]).
    rewrite Hne, H0, H1. cbn. destruct st; reflexivity.
  - cbn [forallb] in Hpre. apply andb_true_iff in Hpre as [Ha Hpre].
    destruct (display_switch_cases a Ha) as (Hne & Hd & [Hb | [Hb Hn]]);
      cbn [app main_for]; rewrite Hne, Hd; cbn [andb].
    + rewrite Hb.
      destruct (IH Hpre wm rc (set_flags st false false))
        as (name & newline & ->).
      now exists name, newline.
    + rewrite Hb, Hn.
      destruct (IH Hpre wm rc (set_flags st false (PrintNewline st)))
        as (name & newline & ->).
      now exists name, newline.
Qed.

(** X19.  A run that reaches [-p] returns 0 whatever happens next: after
    any number of [-n] and [-b] switches, [-p] runs [Preload] on the next
    argument, or on the default file when there is none or it is empty,
    and the status is 0 even when the file cannot be opened or settings
    fail; the arguments after the file are not looked at. *)
Theorem preload_run_status (fuel : nat) (fs : filesys) (argv0 : cstr)
    (pre : list cstr) (arg : cstr) (rest : list cstr) :
  forallb display_switch pre = true ->
  load arg 0 = "-"%char -> load arg 1 = "p"%char ->
  exists name newline,
    main fuel fs argv0 (pre ++ arg :: rest)
    = Some (0,
            Preload fs
              match rest with
              | file :: _ => if is_empty file then DEFAULT_PRELOAD else file
              | [] => DEFAULT_PRELOAD
              end
              (set_flags initial_state name newline)).
Proof.
  intros Hpre H0 H1. unfold main.
  replace (Nat.ltb (1 + length (pre ++ arg :: rest)) 2) with false.
  - now apply main_for_preload.
  - symmetry. apply Nat.ltb_ge. rewrite length_app. simpl. lia.
Qed.

Lemma preload_run_status_witness :
  exists name newline,
    main 0 sample_fs (lit "sysctl")
      [lit "-n"; lit "-p"; lit "/no/such/file"; lit "ignored"]
    = Some (0,
            Preload sample_fs (lit "/no/such/file")
              (set_flags initial_state name newline)).
Proof.
  apply (preload_run_status 0 sample_fs (lit "sysctl") [lit "-n"] (lit "-p")
           [lit "/no/such/file"; lit "ignored"]); reflexivity.
Defined.

Lemma WriteSetting_code_range (fs : filesys) (setting : option cstr)
    (st : state) :
  fst (WriteSetting fs setting st) = 0 \/
  fst (WriteSetting fs setting st) = -1 \/
  fst (WriteSetting fs setting st) = -2.
Proof.
  unfold WriteSetting. destruct setting as [name|]; [|now left].
  destruct (index name "=") as [equals|]; [|right; now left].
  destruct (is_empty name || is_empty (skipn (equals + 1) name)
            || Nat.eqb equals 0); [right; now right|].
  destruct (fopen_w fs _); [right; now left | now left].
Qed.

Lemma DisplayAll_code_range (fuel : nat) (fs : filesys) (b : bool)
    (path : cstr) (st : state) (rc : Z) (st' : state) :
  DisplayAll fuel fs b path st = Some (rc, st') -> rc = 0 \/ rc = -1.
Proof.
  destruct fuel as [|fuel]; [discriminate|]. cbn [DisplayAll].
  destruct (opendir fs path) as [names|].
  - intros H. apply DisplayAll_while_status in H. subst rc.
    apply leaf_codes_range. now left.
  - intros [= <- <-]. now right.
Qed.

Lemma main_for_codes (fuel : nat) (fs : filesys) (me : cstr)
    (argv : list cstr) :
  forall (sw wm : bool) (rc0 : Z) (st : state) (rc : Z) (st' : state),
    rc0 = 0 \/ rc0 = -1 \/ rc0 = -2 ->
    main_for fuel fs me argv sw wm rc0 st = Some (rc, st') ->
    rc = 0 \/ rc = -1 \/ rc = -2.
Proof.
  induction argv as [|arg argv IH]; intros sw wm rc0 st rc st' H0.
  - intros [= <- <-]. exact H0.
  - cbn [main_for]. destruct (is_empty arg); [intros [= <- <-]; exact H0|].
    destruct (sw && Ascii.eqb (load arg 0) "-").
    + destruct (Ascii.eqb (load arg 1) "b"); [now apply IH|].
      destruct (Ascii.eqb (load arg 1) "n"); [now apply IH|].
      destruct (Ascii.eqb (load arg 1) "w"); [now apply IH|].
      destruct (Ascii.eqb (load arg 1) "p"); [intros [= <- <-]; now left|].
      destruct (Ascii.eqb (load arg 1) "a" || Ascii.eqb (load arg 1) "A"
                || Ascii.eqb (load arg 1) "X").
      { intros H. apply DisplayAll_code_range in H as [-> | ->]; auto. }
      destruct (Ascii.eqb (load arg 1) "h" || Ascii.eqb (load arg 1) "?");
        intros [= <- <-]; right; now left.
    + destruct wm.
      * match goal with
        | |- context [WriteSetting fs ?a st] =>
            pose proof (WriteSetting_code_range fs a st) as Hw;
            destruct (WriteSetting fs a st) as [rc1 st1]
        end.
        apply IH. exact Hw.
      * destruct (ReadSetting fs arg st) as [rc1 st1]. now apply IH.
Qed.

(** X20.  Whenever [main] returns, the value is 0, -1 or -2, so the exit
    status seen by the parent is 0, 255 or 254. *)
Theorem main_status_range (fuel : nat) (fs : filesys) (argv0 : cstr)
    (args : list cstr) (rc : Z) (st : state) :
  main fuel fs argv0 args = Some (rc, st) ->
  (rc = 0 \/ rc = -1 \/ rc = -2) /\
  (exit_status rc = 0 \/ exit_status rc = 255 \/ exit_status rc = 254).
Proof.
  intros H.
  assert (Hrc : rc = 0 \/ rc = -1 \/ rc = -2).
  { unfold main in H. destruct (Nat.ltb (1 + length args) 2).
    - injection H as <- _. right. now left.
    - eapply main_for_codes; [|exact H]. now left. }
  split; [exact Hrc|].
  destruct Hrc as [-> | [-> | ->]]; cbn; auto.
Qed.

Lemma main_status_range_witness :
  exists st,
    main 0 sample_fs (lit "sysctl") [lit "-w"; lit "net.b"] = Some (-1, st) /\
    exit_status (-1) = 255.
Proof.
  destruct (main 0 sample_fs (lit "sysctl") [lit "-w"; lit "net.b"])
    as [[rc st]|] eqn:E; [|discriminate E].
  destruct (main_status_range 0 sample_fs (lit "sysctl")
              [lit "-w"; lit "net.b"] rc st E) as [_ Hex].
  assert (Hrc : rc = -1) by (vm_compute in E; congruence).
  subst rc. exists st. split; [reflexivity|].
  destruct Hex as [H | [H | H]]; [discriminate H | exact H | discriminate H].
Defined.
